(** * A shallow embedding of the RTB auction pipeline of prebid-server

    Sources embedded here:
    - [partners/manager.go]: the partner registry ([Manager]).
    - [partners/metrics.go] (third file of that package): [MatchTargeting]
      and [ShortlistDSPs].
    - [openrtb_2_5] auction endpoint ([AuctionHandler.Handle]), the first of
      the two handler variants, whose metric calls match the metric
      definitions with [SSPResponseCounter] and [DSPResponseCounter].
    - [logging/bid_logger.go]: the asynchronous bid logger.

    Conventions.
    - A Go [int], [int64] or [uint32] is a [Z]; conversions wrap explicitly.
    - A Go [float64] is its IEEE-754 binary64 bit pattern (a [Z] in
      [0, 2^64)); the comparison [>] is the IEEE ordering on it.
    - A Go [string] is a [String.string] (a sequence of bytes, as in Go);
      a [[]byte] is a [list Z] of values in [0, 256).
    - Pointers that may be [nil] are [option]s. *)

From Stdlib Require Import ZArith List String Ascii Bool Lia Permutation.
Import ListNotations.
Open Scope Z_scope.

(* ------------------------------------------------------------------ *)
(** ** float64 *)

Module Float64.

(** The bit pattern of a binary64 value. *)
Definition float64 := Z.

Definition zero : float64 := 0.

Definition exponent (b : float64) : Z := Z.land (Z.shiftr b 52) 2047.
Definition mantissa (b : float64) : Z := Z.land b (2 ^ 52 - 1).

Definition is_nan (b : float64) : bool :=
  (exponent b =? 2047) && negb (mantissa b =? 0).

(** For non-NaN values the IEEE order is the order of the signed magnitude:
    the magnitude bits are monotone in the absolute value, and +0 and -0
    both have key 0. *)
Definition key (b : float64) : Z :=
  let m := Z.land b (2 ^ 63 - 1) in
  if Z.testbit b 63 then - m else m.

(** Go's [a > b] on [float64]: false as soon as one side is NaN. *)
Definition gt (a b : float64) : bool :=
  negb (is_nan a) && negb (is_nan b) && (key b <? key a).

(** Go's [a >= b] and [a <= b] on [float64]. *)
Definition ge (a b : float64) : bool :=
  negb (is_nan a) && negb (is_nan b) && (key b <=? key a).

Definition le (a b : float64) : bool := ge b a.

(** A well-formed bit pattern. *)
Definition wf (b : float64) : Prop := 0 <= b < 2 ^ 64.

End Float64.
Arguments Float64.is_nan : simpl never.
Arguments Float64.key : simpl never.
Arguments Float64.gt : simpl never.
Arguments Float64.ge : simpl never.
Abbreviation float64 := Float64.float64.

(* ------------------------------------------------------------------ *)
(** ** Go's strings.ToUpper / strings.ToLower

    Both functions take a fast path when every byte of the string is below
    0x80 and otherwise run [strings.Map] with [unicode.ToUpper] /
    [unicode.ToLower] over the runes of the string.  Those map the ASCII
    letters themselves and look every other rune up in Unicode's case
    tables ([unicode.To(UpperCase, r)], [unicode.To(LowerCase, r)]).  The
    tables are data of Go's standard library, not of this program: they are
    a parameter here (the class [UnicodeTables]), and what is proved below
    holds for every such table. *)

(** [unicode.UpperCase] and [unicode.LowerCase]. *)
Definition UpperCase : Z := 0.
Definition LowerCase : Z := 1.

Class UnicodeTables := {
  (** [unicode.To(_case, r)] for a rune [r] above [unicode.MaxASCII]. *)
  To : Z -> Z -> Z;
  (** The tables map a rune to a rune: [r + delta] stays in range, and a
      rune without an entry is returned as it is. *)
  To_rune : forall c r, 0 <= r -> 0 <= To c r
}.

(** [[]byte(s)] and [string(b)]. *)
Definition to_bytes (s : string) : list Z :=
  map (fun c => Z.of_nat (nat_of_ascii c)) (list_ascii_of_string s).

Definition of_bytes (l : list Z) : string :=
  string_of_list_ascii (map (fun b => ascii_of_nat (Z.to_nat b)) l).

Definition in_range (lo hi b : Z) : bool := (lo <=? b) && (b <=? hi).

(** [utf8.RuneError], U+FFFD. *)
Definition RuneError : Z := 65533.

(** The runes [for _, c := range s] yields ([utf8.DecodeRuneInString] at
    each position): a well-formed sequence of 1 to 4 bytes gives its rune;
    a byte that does not start one (an invalid lead byte, a bad or missing
    continuation byte, an overlong form, a surrogate, a value above
    U+10FFFF) gives [RuneError] and the loop moves on by that one byte. *)
Fixpoint runes_of (l : list Z) : list Z :=
  match l with
  | [] => []
  | b0 :: r =>
    if b0 <? 128 then b0 :: runes_of r else
    match r with
    | [] => RuneError :: runes_of r
    | b1 :: r1 =>
      if in_range 194 223 b0 && in_range 128 191 b1
      then (Z.land b0 31 * 64 + Z.land b1 63) :: runes_of r1 else
      match r1 with
      | [] => RuneError :: runes_of r
      | b2 :: r2 =>
        if in_range 224 239 b0
           && in_range (if b0 =? 224 then 160 else 128) (if b0 =? 237 then 159 else 191) b1
           && in_range 128 191 b2
        then (Z.land b0 15 * 4096 + Z.land b1 63 * 64 + Z.land b2 63) :: runes_of r2 else
        match r2 with
        | [] => RuneError :: runes_of r
        | b3 :: r3 =>
          if in_range 240 244 b0
             && in_range (if b0 =? 240 then 144 else 128) (if b0 =? 244 then 143 else 191) b1
             && in_range 128 191 b2 && in_range 128 191 b3
          then (Z.land b0 7 * 262144 + Z.land b1 63 * 4096 + Z.land b2 63 * 64
                + Z.land b3 63) :: runes_of r3
          else RuneError :: runes_of r
        end
      end
    end
  end.

(** [utf8.AppendRune] (what [Builder.WriteRune] writes): one to four bytes;
    a surrogate or a value above U+10FFFF is written as [RuneError]. *)
Definition encode_rune (r : Z) : list Z :=
  let i := r mod 2 ^ 32 in
  if i <=? 127 then [i mod 256] else
  if i <=? 2047 then [Z.lor 192 (Z.shiftr r 6 mod 256); Z.lor 128 (Z.land r 63)] else
  let r := if (1114111 <? i) || in_range 55296 57343 i then RuneError else r in
  if (1114111 <? i) || (i <=? 65535)
  then [Z.lor 224 (Z.shiftr r 12 mod 256); Z.lor 128 (Z.land (Z.shiftr r 6) 63);
        Z.lor 128 (Z.land r 63)]
  else [Z.lor 240 (Z.shiftr r 18 mod 256); Z.lor 128 (Z.land (Z.shiftr r 12) 63);
        Z.lor 128 (Z.land (Z.shiftr r 6) 63); Z.lor 128 (Z.land r 63)].

(** [strings.Map(mapping, s)]: each rune [c] of [s] is replaced by
    [mapping(c)], dropped when that is negative.  (The source copies the
    prefix of runes that [mapping] leaves unchanged as it is; those bytes
    are the encodings of those runes, which is what is written here.) *)
Definition Map (mapping : Z -> Z) (s : string) : string :=
  of_bytes (flat_map (fun c => let r := mapping c in
                               if 0 <=? r then encode_rune r else [])
                     (runes_of (to_bytes s))).

(** [unicode.ToUpper] and [unicode.ToLower]. *)
Definition unicode_ToUpper `{UnicodeTables} (r : Z) : Z :=
  if r <=? 127 then (if in_range 97 122 r then r - 32 else r) else To UpperCase r.

Definition unicode_ToLower `{UnicodeTables} (r : Z) : Z :=
  if r <=? 127 then (if in_range 65 90 r then r + 32 else r) else To LowerCase r.

Definition ascii_to_upper (c : ascii) : ascii :=
  let n := nat_of_ascii c in
  if (97 <=? n)%nat && (n <=? 122)%nat then ascii_of_nat (n - 32) else c.

Definition ascii_to_lower (c : ascii) : ascii :=
  let n := nat_of_ascii c in
  if (65 <=? n)%nat && (n <=? 90)%nat then ascii_of_nat (n + 32) else c.

(** The loops of the ASCII fast paths: [c -= 'a' - 'A'] on [a-z], and
    [c += 'a' - 'A'] on [A-Z], every other byte kept. *)
Fixpoint ascii_upper (s : string) : string :=
  match s with
  | EmptyString => EmptyString
  | String c r => String (ascii_to_upper c) (ascii_upper r)
  end.

Fixpoint ascii_lower (s : string) : string :=
  match s with
  | EmptyString => EmptyString
  | String c r => String (ascii_to_lower c) (ascii_lower r)
  end.

(** [func ToUpper(s string) string] *)
Definition ToUpper `{UnicodeTables} (s : string) : string :=
  let bs := to_bytes s in
  if forallb (fun c => c <? 128) bs then
    if negb (existsb (in_range 97 122) bs) then s else ascii_upper s
  else Map unicode_ToUpper s.

(** [func ToLower(s string) string] *)
Definition ToLower `{UnicodeTables} (s : string) : string :=
  let bs := to_bytes s in
  if forallb (fun c => c <? 128) bs then
    if negb (existsb (in_range 65 90) bs) then s else ascii_lower s
  else Map unicode_ToLower s.

(** Tables with no entry above 0x7F.  The examples below use ASCII data, on
    which [ToUpper] and [ToLower] take the fast path and never consult the
    tables. *)
Definition no_tables : UnicodeTables :=
  {| To := fun _ r => r; To_rune := fun _ _ H => H |}.

(* ------------------------------------------------------------------ *)
(** ** Partner records ([partners/manager.go]) *)

Module SSPInventory.
Record t := mk {
  Name : string;
  ID : Z;
  InventoryName : string;
  Status : string;
  InventoryCode : string;
  TenantIdentifier : string;
  SSPIdentifier : string;
  TenantID : Z;
  SSPID : Z;
  SSPInventoryID : Z;
  PrometheusID : string;
  PrometheusIdentifier : string;
  AdFormats : list string
}.
End SSPInventory.

Module DSPInventory.
Record t := mk {
  Name : string;
  DSPIdentifier : string;
  EndpointName : string;
  EndpointURL : string;
  QPS : Z;
  Tmax : Z;
  ID : Z;
  InventoryCode : string;
  Status : string;
  MinBidFloor : string;
  MaxBidFloor : string;
  AdFormats : list string;
  Source : list string;
  Country : list string;
  CountryBlackList : list string;
  IABCategories : list string;
  BundleIDs : list string;
  BundleIDsBlackList : list string;
  SSPs : list string;
  SSPsBlackList : list string;
  Publishers : list string;
  PublishersBlackList : list string;
  TenantIdentifier : string;
  TenantID : Z;
  DSPID : Z;
  DSPInventoryID : Z;
  PrometheusID : string;
  PrometheusIdentifier : string
}.
End DSPInventory.

Module PartnersConfig.
Record t := mk {
  SSPInventories : list SSPInventory.t;
  DSPInventories : list DSPInventory.t;
  AdServing : bool;
  TS : string
}.
End PartnersConfig.

(* ------------------------------------------------------------------ *)
(** ** The partner registry ([Manager]) *)

Module Manager.

(** [Manager.config] is an [atomic.Pointer[PartnersConfig]]: [None] is the
    nil pointer of a manager that has not loaded yet. *)
Definition t := option PartnersConfig.t.

(** Go's [error] result: [None] is [nil]. *)
Definition error := option string.

Section Load.
(** [os.ReadFile]: the file system, [None] when the file cannot be read. *)
Variable ReadFile : string -> option (list Z).
(** [json.Unmarshal] into a [PartnersConfig], [None] on a decode error. *)
Variable Unmarshal : list Z -> option PartnersConfig.t.

(** [func (m *Manager) Load(path string) error] *)
Definition Load (path : string) (m : t) : error * t :=
  match ReadFile path with
  | None => (Some "failed to read partners file"%string, m)
  | Some data =>
      match Unmarshal data with
      | None => (Some "failed to unmarshal partners config"%string, m)
      | Some cfg => (None, Some cfg)
      end
  end.
End Load.

(** [func (m *Manager) StartReloading(ctx, path)]: the goroutine's loop.
    Each element of [ticks] is one tick of the one-minute ticker, carrying
    what [os.ReadFile(path)] returns at that moment; the end of the list is
    [ctx.Done()].  The result is what each tick logs ([None] for a
    successful reload, the error of [Load] otherwise) and the manager
    afterwards. *)
Fixpoint StartReloading (Unmarshal : list Z -> option PartnersConfig.t) (path : string)
  (ticks : list (option (list Z))) (m : t) : list error * t :=
  match ticks with
  | [] => ([], m)
  | rd :: rest =>
      let '(err, m1) := Load (fun _ => rd) Unmarshal path m in
      let '(errs, m2) := StartReloading Unmarshal path rest m1 in
      (err :: errs, m2)
  end.

(** [func (m *Manager) GetConfig() *PartnersConfig] *)
Definition GetConfig (m : t) : option PartnersConfig.t := m.

(** [func (m *Manager) GetSSPByInventoryCode(code string) (ptr SSPInventory, bool)]:
    the loop over [cfg.SSPInventories]. *)
Fixpoint find_ssp (code : string) (l : list SSPInventory.t) : option SSPInventory.t :=
  match l with
  | [] => None
  | s :: r => if String.eqb (SSPInventory.InventoryCode s) code then Some s
              else find_ssp code r
  end.

Definition GetSSPByInventoryCode (m : t) (code : string) : option SSPInventory.t :=
  match GetConfig m with
  | None => None
  | Some cfg => find_ssp code (PartnersConfig.SSPInventories cfg)
  end.

(** [func (m *Manager) GetDSPsByTenant(tenantID int) []DSPInventory]: the
    loop appends each matching record to the accumulator [dsps]. *)
Fixpoint dsps_loop (tenantID : Z) (l : list DSPInventory.t) (dsps : list DSPInventory.t)
  : list DSPInventory.t :=
  match l with
  | [] => dsps
  | d :: r =>
      if (DSPInventory.TenantID d =? tenantID) && String.eqb (DSPInventory.Status d) "Active"
      then dsps_loop tenantID r (dsps ++ [d])
      else dsps_loop tenantID r dsps
  end.

Definition GetDSPsByTenant (m : t) (tenantID : Z) : list DSPInventory.t :=
  match GetConfig m with
  | None => []
  | Some cfg => dsps_loop tenantID (PartnersConfig.DSPInventories cfg) []
  end.

End Manager.

(* ------------------------------------------------------------------ *)
(** ** OpenRTB 2.x objects (the fields the code reads) *)

Module App.
Record t := mk { ID : string; Name : string; Bundle : string; Domain : string }.
End App.

Module Site.
Record t := mk { Domain : string; Page : string }.
End Site.

Module Geo.
Record t := mk { Country : string }.
End Geo.

Module Device.
Record t := mk { Geo : option Geo.t }.
End Device.

(** An impression; [Banner] .. [Native] say whether the sub-object pointer is
    non-nil (its contents are never read). *)
Module Imp.
Record t := mk {
  Banner : bool; Video : bool; Audio : bool; Native : bool;
  BidFloor : float64
}.
End Imp.

Module BidRequest.
Record t := mk {
  ID : string;
  TMax : Z;
  App : option App.t;
  Site : option Site.t;
  Device : option Device.t;
  Imp : list Imp.t
}.
End BidRequest.

Module Bid.
Record t := mk { ID : string; Price : float64 }.
End Bid.

Module SeatBid.
Record t := mk { Bid : list Bid.t }.
End SeatBid.

Module BidResponse.
Record t := mk { ID : string; SeatBid : list SeatBid.t }.
End BidResponse.

(* ------------------------------------------------------------------ *)
(** ** Targeting ([MatchTargeting]) and shortlisting ([ShortlistDSPs])

    [MatchTargeting] is a sequence of rules, each of which either returns
    [false] from the function or falls through to the next one.  Each rule is
    written below as a boolean that is [false] exactly when the rule returns
    [false]; [MatchTargeting] runs them in the source's order. *)

Module Targeting.

Section Tables.
Context {tables : UnicodeTables}.

(** 1. Source check (App vs Web). *)
Definition source_rule (req : BidRequest.t) (dsp : DSPInventory.t) : bool :=
  let isApp := match BidRequest.App req with Some _ => true | None => false end in
  let sourceMatch :=
    existsb (fun s => (isApp && String.eqb (ToLower s) "app")
                      || (negb isApp && String.eqb (ToLower s) "web"))
            (DSPInventory.Source dsp) in
  negb (negb sourceMatch && (0 <? Z.of_nat (List.length (DSPInventory.Source dsp)))).

(** [country := strings.ToUpper(req.Device.Geo.Country)] when both pointers
    are non-nil, [""] otherwise. *)
Definition country_of (req : BidRequest.t) : string :=
  match BidRequest.Device req with
  | Some d => match Device.Geo d with
              | Some g => ToUpper (Geo.Country g)
              | None => EmptyString
              end
  | None => EmptyString
  end.

Definition country_blacklisted (country : string) (dsp : DSPInventory.t) : bool :=
  existsb (fun bc => String.eqb (ToUpper bc) country) (DSPInventory.CountryBlackList dsp).

Definition country_whitelisted (country : string) (dsp : DSPInventory.t) : bool :=
  existsb (fun wc => String.eqb (ToUpper wc) country || String.eqb (ToUpper wc) "ANY")
          (DSPInventory.Country dsp).

(** 2. Country matching. *)
Definition country_rule (req : BidRequest.t) (dsp : DSPInventory.t) : bool :=
  let country := country_of req in
  if negb (String.eqb country EmptyString) then
    if country_blacklisted country dsp then false
    else if 0 <? Z.of_nat (List.length (DSPInventory.Country dsp)) then
      country_whitelisted country dsp
    else true
  else true.

(** 3. Bundle ID matching (App only). *)
Definition bundle_rule (req : BidRequest.t) (dsp : DSPInventory.t) : bool :=
  match BidRequest.App req with
  | Some app =>
      if negb (String.eqb (App.Bundle app) EmptyString) then
        if existsb (fun bb => String.eqb bb (App.Bundle app)) (DSPInventory.BundleIDsBlackList dsp)
        then false
        else if 0 <? Z.of_nat (List.length (DSPInventory.BundleIDs dsp)) then
          existsb (fun wb => String.eqb wb (App.Bundle app)) (DSPInventory.BundleIDs dsp)
        else true
      else true
  | None => true
  end.

(** 4. Ad Formats matching: the two nested loops with [break]. *)
Definition format_hit (imp : Imp.t) (df : string) : bool :=
  let dfLower := ToLower df in
  (Imp.Banner imp && String.eqb dfLower "banner")
  || (Imp.Video imp && String.eqb dfLower "video")
  || (Imp.Audio imp && String.eqb dfLower "audio")
  || (Imp.Native imp && String.eqb dfLower "native").

Definition format_rule (req : BidRequest.t) (dsp : DSPInventory.t) : bool :=
  if 0 <? Z.of_nat (List.length (DSPInventory.AdFormats dsp)) then
    existsb (fun imp => existsb (format_hit imp) (DSPInventory.AdFormats dsp)) (BidRequest.Imp req)
  else true.

(** 5. IAB Categories and 6. Bid Floor matching: both blocks compute values
    (a [hasAny] flag, a parsed [minFloor]) but their bodies are empty, so
    they never return [false]. *)
Definition iab_rule (req : BidRequest.t) (dsp : DSPInventory.t) : bool := true.
Definition floor_rule (req : BidRequest.t) (dsp : DSPInventory.t) : bool := true.

(** [func MatchTargeting(req *openrtb2.BidRequest, dsp *DSPInventory) bool] *)
Definition MatchTargeting (req : BidRequest.t) (dsp : DSPInventory.t) : bool :=
  if negb (source_rule req dsp) then false else
  if negb (country_rule req dsp) then false else
  if negb (bundle_rule req dsp) then false else
  if negb (format_rule req dsp) then false else
  if negb (iab_rule req dsp) then false else
  if negb (floor_rule req dsp) then false else
  true.

(** [func ShortlistDSPs(req, candidates []DSPInventory, limit int) []DSPInventory]:
    the range loop; [shortlisted] is the accumulator, and the length test
    comes after the [append]. *)
Fixpoint shortlist_loop (req : BidRequest.t) (limit : Z) (candidates : list DSPInventory.t)
  (shortlisted : list DSPInventory.t) : list DSPInventory.t :=
  match candidates with
  | [] => shortlisted
  | dsp :: rest =>
      if MatchTargeting req dsp then
        let shortlisted' := shortlisted ++ [dsp] in
        if Z.of_nat (List.length shortlisted') >=? limit then shortlisted'
        else shortlist_loop req limit rest shortlisted'
      else shortlist_loop req limit rest shortlisted
  end.

Definition ShortlistDSPs (req : BidRequest.t) (candidates : list DSPInventory.t) (limit : Z)
  : list DSPInventory.t :=
  shortlist_loop req limit candidates [].

End Tables.

End Targeting.

(* ------------------------------------------------------------------ *)
(** ** The logged auction event ([proto/generated], not among the sources)

    Modelled from the spec: the generated [AuctionEvent] message with the
    fields listed in section 3 of the spec and the Go field names the
    handler assigns. *)

Module Generated.

Module App.
Record t := mk { Id : string; Name : string; Bundle : string; Domain : string }.
End App.

Module Web.
Record t := mk { Domain : string; Page : string }.
End Web.

(** The [source] oneof: [AuctionEvent_App] or [AuctionEvent_Web]. *)
Inductive isAuctionEvent_Source :=
| AuctionEvent_App (a : App.t)
| AuctionEvent_Web (w : Web.t).

Module AuctionEvent.
Record t := mk {
  TenantId : Z;                 (* uint32 *)
  SspPartnerId : Z;             (* uint32 *)
  SspInventoryId : Z;           (* uint32 *)
  SspPartnerAuctionId : string;
  DspPartnerId : Z;             (* uint32 *)
  DspInventoryId : Z;           (* uint32 *)
  DspPrice : float64;           (* double *)
  BidRequestPrice : float64;    (* double *)
  RawBidRequest : list Z;       (* bytes *)
  RawDspResponse : list Z;      (* bytes *)
  Source : option isAuctionEvent_Source;
  Hostname : string;
  Timestamp : Z                 (* int64 *)
}.
End AuctionEvent.

End Generated.

(* ------------------------------------------------------------------ *)
(** ** The auction endpoint ([AuctionHandler.Handle]) *)

Module Auction.

(** Go's [uint32(x)] on an [int]. *)
Definition uint32 (x : Z) : Z := x mod 2 ^ 32.

(** The observable effects of one request: metric updates, DSP calls and the
    hand-off to the bid logger. *)
Inductive Effect :=
| AuctionInc (status : string)
| SSPRequestInc (prometheus_identifier tenant_identifier ssp_identifier : string)
| SSPResponseInc (prometheus_identifier tenant_identifier ssp_identifier status : string)
| DSPRequestInc (prometheus_identifier tenant_identifier dsp_identifier : string)
| DSPCall (dsp : DSPInventory.t) (body : list Z)
| DSPLatencyObserve (prometheus_identifier tenant_identifier dsp_identifier : string)
| DSPResponseInc (prometheus_identifier tenant_identifier dsp_identifier status : string)
| BidLog (event : Generated.AuctionEvent.t).

Inductive Body :=
| NoBody
| TextBody (msg : string)
| JSONBody (json : list Z).

(** What the handler writes to the [http.ResponseWriter]. *)
Record Response := mkResponse { Code : Z; RespBody : Body }.

(** [type bidResult struct { resp *openrtb2.BidResponse; dsp partners.DSPInventory }] *)
Record bidResult := mkBidResult { resp : BidResponse.t; dsp : DSPInventory.t }.

(** Step 8, the selection loop: [bestResult] and [maxPrice] start at [nil]
    and [0.0]; a bid replaces them only when [bid.Price > maxPrice]. *)
Definition bid_step (res : bidResult) (acc : option bidResult * float64) (bid : Bid.t)
  : option bidResult * float64 :=
  let '(bestResult, maxPrice) := acc in
  if Float64.gt (Bid.Price bid) maxPrice then (Some res, Bid.Price bid) else acc.

Definition seatbid_step (res : bidResult) (acc : option bidResult * float64) (sb : SeatBid.t) :=
  fold_left (bid_step res) (SeatBid.Bid sb) acc.

Definition result_step (acc : option bidResult * float64) (res : bidResult) :=
  fold_left (seatbid_step res) (BidResponse.SeatBid (resp res)) acc.

Definition select (received : list bidResult) : option bidResult * float64 :=
  fold_left result_step received (None, Float64.zero).

(** The prices of a response's bids, in the order the loops visit them. *)
Definition prices (r : bidResult) : list float64 :=
  flat_map (fun sb => map Bid.Price (SeatBid.Bid sb)) (BidResponse.SeatBid (resp r)).

(** The selection loop seen as one loop over (result, price) pairs. *)
Definition pairs (r : bidResult) : list (bidResult * float64) :=
  flat_map (fun sb => map (fun b => (r, Bid.Price b)) (SeatBid.Bid sb)) (BidResponse.SeatBid (resp r)).

Definition flat (rs : list bidResult) : list (bidResult * float64) := flat_map pairs rs.

Definition pair_step (acc : option bidResult * float64) (x : bidResult * float64)
  : option bidResult * float64 :=
  if Float64.gt (snd x) (snd acc) then (Some (fst x), snd x) else acc.

(** [hasBid]: some seat bid has at least one bid. *)
Definition hasBid (r : BidResponse.t) : bool :=
  existsb (fun sb => match SeatBid.Bid sb with [] => false | _ => true end)
          (BidResponse.SeatBid r).

Section Handler.
(** [json.Unmarshal] of the request body into an [openrtb2.BidRequest]. *)
Variable UnmarshalReq : list Z -> option BidRequest.t.
(** [h.callDSP(auctionCtx, d, body)] under the auction deadline of [TMax]
    milliseconds: [None] is a non-nil error (transport, status, decode or
    deadline). *)
Variable CallDSP : Z -> DSPInventory.t -> list Z -> option BidResponse.t.
(** The order in which [bidChan] delivers the results the goroutines send. *)
Variable Arrival : list bidResult -> list bidResult.
(** [json.Marshal] of a [BidResponse]. *)
Variable MarshalResp : BidResponse.t -> list Z.
(** [logging.GetBidLogger() != nil]. *)
Variable BidLoggerPresent : bool.
(** Go's Unicode case tables (for [ShortlistDSPs]). *)
Context {tables : UnicodeTables}.

(** The goroutine of one shortlisted DSP: its effects, and what it sends on
    [bidChan]. *)
Definition dsp_task (tmax : Z) (body : list Z) (d : DSPInventory.t)
  : list Effect * option bidResult :=
  let p := DSPInventory.PrometheusIdentifier d in
  let t := DSPInventory.TenantIdentifier d in
  let i := DSPInventory.DSPIdentifier d in
  let pre := [DSPRequestInc p t i; DSPCall d body; DSPLatencyObserve p t i] in
  match CallDSP tmax d body with
  | None => (pre ++ [DSPResponseInc p t i "error"], None)
  | Some r =>
      let status := if hasBid r then "bid"%string else "nobid"%string in
      (pre ++ [DSPResponseInc p t i status], Some (mkBidResult r d))
  end.

(** Step 7, the fan-out: the tasks' effects and the results sent on
    [bidChan].  The goroutines run concurrently, so the code fixes no order
    between the effects of different tasks (the order of the results is
    [Arrival]'s); they are listed here task after task, in shortlist order,
    each task's own effects in its order.  What is proved about them counts
    effects or asks which DSPs are called, and does not depend on the order
    between tasks. *)
Fixpoint fan_out (tmax : Z) (body : list Z) (dsps : list DSPInventory.t)
  : list Effect * list bidResult :=
  match dsps with
  | [] => ([], [])
  | d :: rest =>
      let '(fx, r) := dsp_task tmax body d in
      let '(fxs, rs) := fan_out tmax body rest in
      (fx ++ fxs, match r with Some x => x :: rs | None => rs end)
  end.

(** The results [bidChan] delivers to the selection loop. *)
Definition received (tmax : Z) (body : list Z) (dsps : list DSPInventory.t) : list bidResult :=
  Arrival (snd (fan_out tmax body dsps)).

(** Step 9: the event handed to [bidLogger.Log]. *)
Definition auction_event (ssp : SSPInventory.t) (bidReq : BidRequest.t) (body : list Z)
  (best : bidResult) (maxPrice : float64) : Generated.AuctionEvent.t :=
  Generated.AuctionEvent.mk
    (uint32 (SSPInventory.TenantID ssp))
    (uint32 (SSPInventory.SSPID ssp))
    (uint32 (SSPInventory.SSPInventoryID ssp))
    (BidRequest.ID bidReq)
    (uint32 (DSPInventory.DSPID (dsp best)))
    (uint32 (DSPInventory.DSPInventoryID (dsp best)))
    maxPrice
    (match BidRequest.Imp bidReq with imp :: _ => Imp.BidFloor imp | [] => Float64.zero end)
    body
    (MarshalResp (resp best))
    (match BidRequest.App bidReq with
     | Some a => Some (Generated.AuctionEvent_App
                         (Generated.App.mk (App.ID a) (App.Name a) (App.Bundle a) (App.Domain a)))
     | None =>
         match BidRequest.Site bidReq with
         | Some s => Some (Generated.AuctionEvent_Web (Generated.Web.mk (Site.Domain s) (Site.Page s)))
         | None => None
         end
     end)
    EmptyString
    0.

(** [func (h *AuctionHandler) Handle(w, r, _)]: [m] is the registry (one
    snapshot for the whole request), [account_code] the query parameter
    ([""] when absent), [body] the result of [io.ReadAll(r.Body)]. *)
Definition Handle (m : Manager.t) (account_code : string) (body : option (list Z))
  : list Effect * Response :=
  let rejected := ([AuctionInc "rejected_adserving_disabled"], mkResponse 204 NoBody) in
  match Manager.GetConfig m with
  | None => rejected
  | Some cfg =>
    if negb (PartnersConfig.AdServing cfg) then rejected else
    if String.eqb account_code EmptyString then
      ([], mkResponse 401 (TextBody "Missing account_code"))
    else
    match Manager.GetSSPByInventoryCode m account_code with
    | None => ([], mkResponse 401 (TextBody "Invalid account_code"))
    | Some ssp =>
      let p := SSPInventory.PrometheusIdentifier ssp in
      let t := SSPInventory.TenantIdentifier ssp in
      let i := SSPInventory.SSPIdentifier ssp in
      let fx0 := [SSPRequestInc p t i] in
      match body with
      | None => (fx0, mkResponse 400 NoBody)
      | Some body =>
        match UnmarshalReq body with
        | None => (fx0, mkResponse 400 NoBody)
        | Some bidReq =>
          if BidRequest.TMax bidReq <=? 120 then
            (fx0 ++ [AuctionInc "rejected_tmax"; SSPResponseInc p t i "error"],
             mkResponse 204 NoBody)
          else
          let candidates := Manager.GetDSPsByTenant m (SSPInventory.TenantID ssp) in
          let selectedDSPs := Targeting.ShortlistDSPs bidReq candidates 5 in
          match selectedDSPs with
          | [] => (fx0 ++ [SSPResponseInc p t i "no_bid"], mkResponse 204 NoBody)
          | _ :: _ =>
            let '(fx, results) := fan_out (BidRequest.TMax bidReq) body selectedDSPs in
            let '(bestResult, maxPrice) := select (Arrival results) in
            match bestResult with
            | None => (fx0 ++ fx ++ [SSPResponseInc p t i "no_bid"], mkResponse 204 NoBody)
            | Some best =>
              let logfx :=
                if BidLoggerPresent
                then [BidLog (auction_event ssp bidReq body best maxPrice)] else [] in
              (fx0 ++ fx ++ logfx ++ [AuctionInc "ok"; SSPResponseInc p t i "ok"],
               mkResponse 200 (JSONBody (MarshalResp (resp best))))
            end
          end
        end
      end
    end
  end.

End Handler.

End Auction.

(* ------------------------------------------------------------------ *)
(** ** The bid logger ([logging/bid_logger.go]) and its wire format *)

Module Logging.
Import Generated.

(** *** Bytes and strings *)

Definition bytes_of_string (s : string) : list Z :=
  map (fun c => Z.of_nat (nat_of_ascii c)) (list_ascii_of_string s).

Definition string_of_bytes (l : list Z) : string :=
  string_of_list_ascii (map (fun b => ascii_of_nat (Z.to_nat b)) l).

Definition byte_range (lo hi b : Z) : bool := (lo <=? b) && (b <=? hi).

(** [utf8.Valid]: well-formed UTF-8 (no overlong forms, no surrogates,
    nothing above U+10FFFF). *)
Fixpoint utf8_valid (l : list Z) : bool :=
  match l with
  | [] => true
  | b0 :: r =>
    if b0 <? 128 then utf8_valid r else
    match r with
    | [] => false
    | b1 :: r1 =>
      if byte_range 194 223 b0 then byte_range 128 191 b1 && utf8_valid r1 else
      match r1 with
      | [] => false
      | b2 :: r2 =>
        if byte_range 224 239 b0 then
          byte_range (if b0 =? 224 then 160 else 128) (if b0 =? 237 then 159 else 191) b1
          && byte_range 128 191 b2 && utf8_valid r2
        else
        match r2 with
        | [] => false
        | b3 :: r3 =>
          if byte_range 240 244 b0 then
            byte_range (if b0 =? 240 then 144 else 128) (if b0 =? 244 then 143 else 191) b1
            && byte_range 128 191 b2 && byte_range 128 191 b3 && utf8_valid r3
          else false
        end
      end
    end
  end.

(** *** Protobuf wire format ([google.golang.org/protobuf/encoding/protowire])

    Varints are little-endian groups of 7 bits; the 10-byte limit of
    [ConsumeVarint] is not modelled. *)

Fixpoint put_varint (fuel : nat) (v : Z) : list Z :=
  match fuel with
  | O => []
  | S f => if v <? 128 then [v] else (v mod 128 + 128) :: put_varint f (v / 128)
  end.

(** [protowire.AppendVarint]: [log2 v + 1] groups suffice. *)
Definition AppendVarint (v : Z) : list Z := put_varint (S (Z.to_nat (Z.log2 v))) v.

Fixpoint ConsumeVarint (l : list Z) : option (Z * list Z) :=
  match l with
  | [] => None
  | b :: r =>
      if b <? 128 then Some (b, r)
      else match ConsumeVarint r with
           | Some (v, r') => Some (b - 128 + 128 * v, r')
           | None => None
           end
  end.

(** Little-endian fixed-width integers ([AppendFixed64], [ConsumeFixed64]). *)
Fixpoint put_le (n : nat) (v : Z) : list Z :=
  match n with
  | O => []
  | S k => v mod 256 :: put_le k (v / 256)
  end.

Fixpoint get_le (n : nat) (l : list Z) : option (Z * list Z) :=
  match n with
  | O => Some (0, l)
  | S k => match l with
           | [] => None
           | b :: r => match get_le k r with
                       | Some (v, r') => Some (b + 256 * v, r')
                       | None => None
                       end
           end
  end.

Inductive WireVal :=
| VVarint (v : Z)
| VFixed64 (v : Z)
| VBytes (b : list Z)
| VFixed32 (v : Z).

Definition wire_type (w : WireVal) : Z :=
  match w with VVarint _ => 0 | VFixed64 _ => 1 | VBytes _ => 2 | VFixed32 _ => 5 end.

Definition put_field (num : Z) (w : WireVal) : list Z :=
  AppendVarint (num * 8 + wire_type w) ++
  match w with
  | VVarint v => AppendVarint v
  | VFixed64 v => put_le 8 v
  | VBytes b => AppendVarint (Z.of_nat (List.length b)) ++ b
  | VFixed32 v => put_le 4 v
  end.

Fixpoint put_fields (fs : list (Z * WireVal)) : list Z :=
  match fs with
  | [] => []
  | (n, w) :: r => put_field n w ++ put_fields r
  end.

(** One field: tag, then the value of its wire type. *)
Definition get_field (l : list Z) : option (Z * WireVal * list Z) :=
  match ConsumeVarint l with
  | None => None
  | Some (tag, r) =>
    let num := tag / 8 in
    let typ := tag mod 8 in
    if num <? 1 then None else
    if typ =? 0 then
      match ConsumeVarint r with Some (v, r') => Some (num, VVarint v, r') | None => None end
    else if typ =? 1 then
      match get_le 8 r with Some (v, r') => Some (num, VFixed64 v, r') | None => None end
    else if typ =? 2 then
      match ConsumeVarint r with
      | Some (n, r') =>
          if Z.of_nat (List.length r') <? n then None
          else Some (num, VBytes (firstn (Z.to_nat n) r'), skipn (Z.to_nat n) r')
      | None => None
      end
    else if typ =? 5 then
      match get_le 4 r with Some (v, r') => Some (num, VFixed32 v, r') | None => None end
    else None
  end.

(** Every field consumes at least one byte, so [length l] steps suffice. *)
Fixpoint get_fields (fuel : nat) (l : list Z) : option (list (Z * WireVal)) :=
  match l with
  | [] => Some []
  | _ :: _ =>
    match fuel with
    | O => None
    | S f =>
      match get_field l with
      | None => None
      | Some (n, w, r) =>
          match get_fields f r with Some fs => Some ((n, w) :: fs) | None => None end
      end
    end
  end.

Definition ConsumeFields (l : list Z) : option (list (Z * WireVal)) :=
  get_fields (List.length l) l.

(** The last field satisfying [p]: for scalar fields the last occurrence
    wins. *)
Fixpoint find_last (p : Z * WireVal -> bool) (fs : list (Z * WireVal)) : option (Z * WireVal) :=
  match fs with
  | [] => None
  | f :: r => match find_last p r with
              | Some x => Some x
              | None => if p f then Some f else None
              end
  end.

Definition has_num_type (num typ : Z) (f : Z * WireVal) : bool :=
  (fst f =? num) && (wire_type (snd f) =? typ).

(** *** Proto3 field codecs (implicit presence: zero values are omitted) *)

Definition opt_varint (num v : Z) : list (Z * WireVal) :=
  if v =? 0 then [] else [(num, VVarint v)].

(** A [double] is omitted only when it is +0.0 (bit pattern 0). *)
Definition opt_double (num bits : Z) : list (Z * WireVal) :=
  if bits =? 0 then [] else [(num, VFixed64 bits)].

Definition opt_bytes (num : Z) (b : list Z) : list (Z * WireVal) :=
  match b with [] => [] | _ :: _ => [(num, VBytes b)] end.

Definition opt_string (num : Z) (s : string) : list (Z * WireVal) :=
  opt_bytes num (bytes_of_string s).

Definition get_uint32 (fs : list (Z * WireVal)) (num : Z) : Z :=
  match find_last (has_num_type num 0) fs with Some (_, VVarint v) => v mod 2 ^ 32 | _ => 0 end.

Definition get_int64 (fs : list (Z * WireVal)) (num : Z) : Z :=
  match find_last (has_num_type num 0) fs with
  | Some (_, VVarint v) => let u := v mod 2 ^ 64 in if 2 ^ 63 <=? u then u - 2 ^ 64 else u
  | _ => 0
  end.

Definition get_double (fs : list (Z * WireVal)) (num : Z) : Z :=
  match find_last (has_num_type num 1) fs with Some (_, VFixed64 v) => v | _ => 0 end.

Definition get_bytes (fs : list (Z * WireVal)) (num : Z) : list Z :=
  match find_last (has_num_type num 2) fs with Some (_, VBytes b) => b | _ => [] end.

Definition get_string (fs : list (Z * WireVal)) (num : Z) : string :=
  string_of_bytes (get_bytes fs num).

(** Proto3 [string] fields are checked for UTF-8 when decoding. *)
Definition strings_ok (nums : list Z) (fs : list (Z * WireVal)) : bool :=
  forallb (fun f => match f with
                    | (n, VBytes b) => if existsb (Z.eqb n) nums then utf8_valid b else true
                    | _ => true
                    end) fs.

(** *** The [AuctionEvent] schema

    Modelled from the spec: [proto/generated] (the [.proto] file and its
    generated Go code) is not among the sources.  Field numbers follow the
    order of the fields in section 3 of the spec; the Go struct types
    ([uint32], [string], [float64], [[]byte], [int64], non-pointer scalars)
    are those of a proto3 message with a [source] oneof:
      1 tenant_id uint32, 2 ssp_partner_id uint32, 3 ssp_inventory_id uint32,
      4 ssp_partner_auction_id string, 5 dsp_partner_id uint32,
      6 dsp_inventory_id uint32, 7 dsp_price double, 8 bid_request_price double,
      9 raw_bid_request bytes, 10 raw_dsp_response bytes,
      oneof source { 11 App app; 12 Web web }, 13 hostname string,
      14 timestamp int64;
      App: 1 id, 2 name, 3 bundle, 4 domain (strings); Web: 1 domain, 2 page. *)

Definition app_fields (a : App.t) : list (Z * WireVal) :=
  opt_string 1 (App.Id a) ++ opt_string 2 (App.Name a)
  ++ opt_string 3 (App.Bundle a) ++ opt_string 4 (App.Domain a).

Definition web_fields (w : Web.t) : list (Z * WireVal) :=
  opt_string 1 (Web.Domain w) ++ opt_string 2 (Web.Page w).

Definition source_fields (s : option isAuctionEvent_Source) : list (Z * WireVal) :=
  match s with
  | None => []
  | Some (AuctionEvent_App a) => [(11, VBytes (put_fields (app_fields a)))]
  | Some (AuctionEvent_Web w) => [(12, VBytes (put_fields (web_fields w)))]
  end.

Definition event_fields (e : AuctionEvent.t) : list (Z * WireVal) :=
  opt_varint 1 (AuctionEvent.TenantId e)
  ++ opt_varint 2 (AuctionEvent.SspPartnerId e)
  ++ opt_varint 3 (AuctionEvent.SspInventoryId e)
  ++ opt_string 4 (AuctionEvent.SspPartnerAuctionId e)
  ++ opt_varint 5 (AuctionEvent.DspPartnerId e)
  ++ opt_varint 6 (AuctionEvent.DspInventoryId e)
  ++ opt_double 7 (AuctionEvent.DspPrice e)
  ++ opt_double 8 (AuctionEvent.BidRequestPrice e)
  ++ opt_bytes 9 (AuctionEvent.RawBidRequest e)
  ++ opt_bytes 10 (AuctionEvent.RawDspResponse e)
  ++ source_fields (AuctionEvent.Source e)
  ++ opt_string 13 (AuctionEvent.Hostname e)
  ++ opt_varint 14 (AuctionEvent.Timestamp e mod 2 ^ 64).

(** The UTF-8 check [proto.Marshal] makes on proto3 [string] fields. *)
Definition event_strings_valid (e : AuctionEvent.t) : bool :=
  utf8_valid (bytes_of_string (AuctionEvent.SspPartnerAuctionId e))
  && utf8_valid (bytes_of_string (AuctionEvent.Hostname e))
  && match AuctionEvent.Source e with
     | None => true
     | Some (AuctionEvent_App a) =>
         forallb (fun s => utf8_valid (bytes_of_string s))
                 [App.Id a; App.Name a; App.Bundle a; App.Domain a]
     | Some (AuctionEvent_Web w) =>
         forallb (fun s => utf8_valid (bytes_of_string s)) [Web.Domain w; Web.Page w]
     end.

(** The ranges of the Go types: a wire value as the encoder produces it
    (tags of field number at least 1, non-negative varints, fixed-width
    values of their width, bytes below 256). *)
Definition is_byte (b : Z) : Prop := 0 <= b < 256.

Definition val_ok (w : WireVal) : Prop :=
  match w with
  | VVarint v => 0 <= v
  | VFixed64 v => 0 <= v < 2 ^ 64
  | VBytes b => Forall is_byte b
  | VFixed32 v => 0 <= v < 2 ^ 32
  end.

Definition field_ok (f : Z * WireVal) : Prop := 1 <= fst f /\ val_ok (snd f).

(** An [AuctionEvent] whose fields hold values of their Go types: [uint32]
    ids, [float64] bit patterns, [[]byte] payloads and an [int64]
    timestamp. *)
Definition wf_event (e : AuctionEvent.t) : Prop :=
  0 <= AuctionEvent.TenantId e < 2 ^ 32
  /\ 0 <= AuctionEvent.SspPartnerId e < 2 ^ 32
  /\ 0 <= AuctionEvent.SspInventoryId e < 2 ^ 32
  /\ 0 <= AuctionEvent.DspPartnerId e < 2 ^ 32
  /\ 0 <= AuctionEvent.DspInventoryId e < 2 ^ 32
  /\ 0 <= AuctionEvent.DspPrice e < 2 ^ 64
  /\ 0 <= AuctionEvent.BidRequestPrice e < 2 ^ 64
  /\ Forall is_byte (AuctionEvent.RawBidRequest e)
  /\ Forall is_byte (AuctionEvent.RawDspResponse e)
  /\ - 2 ^ 63 <= AuctionEvent.Timestamp e < 2 ^ 63.

(** [proto.Marshal(event)]: [None] is the error for a string field that is
    not valid UTF-8. *)
Definition Marshal (e : AuctionEvent.t) : option (list Z) :=
  if event_strings_valid e then Some (put_fields (event_fields e)) else None.

Definition decode_app (b : list Z) : option App.t :=
  match ConsumeFields b with
  | Some fs =>
      if strings_ok [1; 2; 3; 4] fs
      then Some (App.mk (get_string fs 1) (get_string fs 2) (get_string fs 3) (get_string fs 4))
      else None
  | None => None
  end.

Definition decode_web (b : list Z) : option Web.t :=
  match ConsumeFields b with
  | Some fs =>
      if strings_ok [1; 2] fs then Some (Web.mk (get_string fs 1) (get_string fs 2)) else None
  | None => None
  end.

(** The oneof holds the member that occurs last (merging of repeated
    occurrences of a sub-message is not modelled). *)
Definition decode_source (fs : list (Z * WireVal)) : option (option isAuctionEvent_Source) :=
  match find_last (fun f => has_num_type 11 2 f || has_num_type 12 2 f) fs with
  | Some (11, VBytes b) => option_map (fun a => Some (AuctionEvent_App a)) (decode_app b)
  | Some (_, VBytes b) => option_map (fun w => Some (AuctionEvent_Web w)) (decode_web b)
  | _ => Some None
  end.

(** [proto.Unmarshal(data, &event)]. *)
Definition Unmarshal (data : list Z) : option AuctionEvent.t :=
  match ConsumeFields data with
  | None => None
  | Some fs =>
    if strings_ok [4; 13] fs then
      match decode_source fs with
      | None => None
      | Some src =>
          Some (AuctionEvent.mk
                  (get_uint32 fs 1) (get_uint32 fs 2) (get_uint32 fs 3)
                  (get_string fs 4)
                  (get_uint32 fs 5) (get_uint32 fs 6)
                  (get_double fs 7) (get_double fs 8)
                  (get_bytes fs 9) (get_bytes fs 10)
                  src
                  (get_string fs 13)
                  (get_int64 fs 14))
      end
    else None
  end.

(** *** [encoding/hex] *)

Definition hexdigit (n : Z) : ascii :=
  ascii_of_nat (Z.to_nat (if n <? 10 then 48 + n else 87 + n)).

(** [hex.EncodeToString]: two lower-case digits per byte. *)
Fixpoint EncodeToString (l : list Z) : string :=
  match l with
  | [] => EmptyString
  | b :: r => String (hexdigit (b / 16)) (String (hexdigit (b mod 16)) (EncodeToString r))
  end.

Definition fromHexChar (c : ascii) : option Z :=
  let n := Z.of_nat (nat_of_ascii c) in
  if byte_range 48 57 n then Some (n - 48)
  else if byte_range 97 102 n then Some (n - 87)
  else if byte_range 65 70 n then Some (n - 55)
  else None.

(** [hex.DecodeString]: [None] on an odd length or a non-hex digit. *)
Fixpoint DecodeString (s : string) : option (list Z) :=
  match s with
  | EmptyString => Some []
  | String _ EmptyString => None
  | String a (String b r) =>
      match fromHexChar a, fromHexChar b, DecodeString r with
      | Some hi, Some lo, Some rest => Some (hi * 16 + lo :: rest)
      | _, _, _ => None
      end
  end.

Definition newline : string := String (ascii_of_nat 10) EmptyString.

(** Reading one line of the log back: drop the final newline, decode the hex,
    and unmarshal the record. *)
Fixpoint strip_newline (s : string) : option string :=
  match s with
  | EmptyString => None
  | String c EmptyString => if Ascii.eqb c (ascii_of_nat 10) then Some EmptyString else None
  | String c r => option_map (String c) (strip_newline r)
  end.

Definition read_line (line : string) : option AuctionEvent.t :=
  match strip_newline line with
  | None => None
  | Some h => match DecodeString h with
              | None => None
              | Some data => Unmarshal data
              end
  end.

(** *** The logger

    [logChan] is a buffered channel: its contents and whether it is closed.
    [writes] are the byte strings passed to [l.writer.Write], in order (the
    lumberjack writer reopens its file on a write after [Close]; rotation and
    I/O errors are not modelled). *)

Record Chan := mkChan { buf : list AuctionEvent.t; closed : bool }.

Record BidLogger := mkBidLogger {
  logChan : Chan;
  bufferSize : nat;
  writes : list string;
  writer_open : bool;
  hostname : string
}.

(** A Go call that may panic. *)
Inductive Result (A : Type) :=
| Ok (a : A)
| Panic (msg : string).
Arguments Ok {A} a.
Arguments Panic {A} msg.

Definition set_chan (l : BidLogger) (c : Chan) : BidLogger :=
  mkBidLogger c (bufferSize l) (writes l) (writer_open l) (hostname l).

Definition add_write (l : BidLogger) (w : string) : BidLogger :=
  mkBidLogger (logChan l) (bufferSize l) (writes l ++ [w]) (writer_open l) (hostname l).

Definition close_writer (l : BidLogger) : BidLogger :=
  mkBidLogger (logChan l) (bufferSize l) (writes l) false (hostname l).

(** [event.Hostname = l.hostname; event.Timestamp = time.Now().UnixMilli()] *)
Definition stamp (l : BidLogger) (now : Z) (e : AuctionEvent.t) : AuctionEvent.t :=
  AuctionEvent.mk (AuctionEvent.TenantId e) (AuctionEvent.SspPartnerId e)
    (AuctionEvent.SspInventoryId e) (AuctionEvent.SspPartnerAuctionId e)
    (AuctionEvent.DspPartnerId e) (AuctionEvent.DspInventoryId e)
    (AuctionEvent.DspPrice e) (AuctionEvent.BidRequestPrice e)
    (AuctionEvent.RawBidRequest e) (AuctionEvent.RawDspResponse e)
    (AuctionEvent.Source e) (hostname l) now.

(** [func (l *BidLogger) Log(event)]: stamp, then a non-blocking send
    ([select] with a [default]); a send on a closed channel panics.  The
    send proceeds when the buffer has room, or when the goroutine of
    [start] is waiting in its receive ([ready], decided by the scheduler;
    it can only wait when no event is pending): on an unbuffered channel
    ([channel_buffer = 0]) the event is then handed to it, and [buf] holds
    it until that goroutine has written it.  Otherwise the event is
    dropped. *)
Definition Log (ready : bool) (now : Z) (e : AuctionEvent.t) (l : BidLogger) : Result BidLogger :=
  let e' := stamp l now e in
  let c := logChan l in
  if closed c then Panic "send on closed channel"
  else if (List.length (buf c) <? bufferSize l)%nat
          || (ready && match buf c with [] => true | _ :: _ => false end)
  then Ok (set_chan l (mkChan (buf c ++ [e']) false))
  else Ok l.

(** [func (l *BidLogger) writeEvent(event)]: a marshal error is logged and
    nothing is written; otherwise one [Write] of [hexData + "\n"]. *)
Definition writeEvent (e : AuctionEvent.t) (l : BidLogger) : BidLogger :=
  match Marshal e with
  | None => l
  | Some data => add_write l (EncodeToString data ++ newline)
  end.

(** One iteration of [for event := range l.logChan] in [start]: [None] when
    the loop ends (channel closed and drained) or blocks (empty and open). *)
Definition start_step (l : BidLogger) : option BidLogger :=
  match buf (logChan l) with
  | e :: r => Some (writeEvent e (set_chan l (mkChan r (closed (logChan l)))))
  | [] => None
  end.

(** [func (l *BidLogger) Close()]: [close(l.logChan)] panics on a channel
    that is already closed; then the writer is closed. *)
Definition Close (l : BidLogger) : Result BidLogger :=
  let c := logChan l in
  if closed c then Panic "close of closed channel"
  else Ok (close_writer (set_chan l (mkChan (buf c) true))).

Definition Close_then_Close (l : BidLogger) : Result BidLogger :=
  match Close l with
  | Ok l' => Close l'
  | Panic m => Panic m
  end.

(** [func (l *BidLogger) start()]: [for event := range l.logChan
    { l.writeEvent(event) }], followed for at most [fuel] iterations; it
    stops early when the loop ends or blocks. *)
Fixpoint start (fuel : nat) (l : BidLogger) : BidLogger :=
  match fuel with
  | O => l
  | S k => match start_step l with Some l' => start k l' | None => l end
  end.

(** The lines the writer loop writes for a queue of events: one per event
    that serializes, in queue order. *)
Definition written_lines (b : list AuctionEvent.t) : list string :=
  flat_map (fun e => match Marshal e with
                     | Some data => [(EncodeToString data ++ newline)%string]
                     | None => []
                     end) b.

(** The digits [hex.EncodeToString] writes: ['0'-'9'] and ['a'-'f']. *)
Definition lower_hex_char (c : ascii) : bool :=
  let n := Z.of_nat (nat_of_ascii c) in byte_range 48 57 n || byte_range 97 102 n.

End Logging.

Arguments Logging.opt_varint : simpl never.
Arguments Logging.opt_double : simpl never.
Arguments Logging.opt_bytes : simpl never.
Arguments Logging.opt_string : simpl never.

(* ------------------------------------------------------------------ *)
(** ** [AuctionHandler.callDSP] *)

Module Client.

(** What [h.HttpClient.Do(req)] gives: a transport error (the context
    deadline and the client's 500 ms timeout included) or a response with
    its status code and body. *)
Inductive HttpResult :=
| TransportError (msg : string)
| HttpResponse (StatusCode : Z) (Body : list Z).

(** The error [callDSP] returns. *)
Inductive CallError :=
| RequestError
| DoError (msg : string)
| StatusError (code : Z)
| DecodeError.

Section CallDSP.
(** [http.NewRequestWithContext(ctx, "POST", dsp.EndpointURL, ...)] fails
    only when the URL does not parse. *)
Variable ParseURL : string -> bool.
(** [h.HttpClient.Do(req)] under the auction deadline of [tmax] ms. *)
Variable Do : Z -> DSPInventory.t -> list Z -> HttpResult.
(** [json.NewDecoder(resp.Body).Decode(&bidResp)] *)
Variable Decode : list Z -> option BidResponse.t.

(** [func (h *AuctionHandler) callDSP(ctx, dsp, body)]: a response, or the error. *)
Definition callDSP (tmax : Z) (dsp : DSPInventory.t) (body : list Z)
  : BidResponse.t + CallError :=
  if negb (ParseURL (DSPInventory.EndpointURL dsp)) then inr RequestError else
  match Do tmax dsp body with
  | TransportError msg => inr (DoError msg)
  | HttpResponse code b =>
      if negb (code =? 200) then inr (StatusError code) else
      match Decode b with
      | Some r => inl r
      | None => inr DecodeError
      end
  end.

(** The [resp, err] pair as the handler's goroutine sees it: [None] when
    [err != nil]. *)
Definition CallDSP (tmax : Z) (dsp : DSPInventory.t) (body : list Z) : option BidResponse.t :=
  match callDSP tmax dsp body with inl r => Some r | inr _ => None end.
End CallDSP.

End Client.

(* ------------------------------------------------------------------ *)
(** ** Metrics ([partners.InitMetrics]) *)

Module Metrics.
Open Scope string_scope.

(** A collector as [prometheus.NewCounterVec] / [NewHistogramVec] build it:
    one descriptor, with its fully-qualified name, its help string and its
    variable label names (no constant labels). *)
Record Desc := mkDesc { Name : string; Help : string; Labels : list string }.

Definition SSPRequestCounter : Desc :=
  mkDesc "rtb_ssp_requests_total" "Total number of RTB requests received from SSPs."
    ["prometheus_identifier"; "tenant_identifier"; "ssp_identifier"].
Definition SSPResponseCounter : Desc :=
  mkDesc "rtb_ssp_responses_total" "Total number of RTB responses sent back to SSPs."
    ["prometheus_identifier"; "tenant_identifier"; "ssp_identifier"; "status"].
Definition DSPRequestCounter : Desc :=
  mkDesc "rtb_dsp_requests_total" "Total number of RTB requests fanned out to DSPs."
    ["prometheus_identifier"; "tenant_identifier"; "dsp_identifier"].
Definition DSPResponseCounter : Desc :=
  mkDesc "rtb_dsp_responses_total" "Total number of RTB responses received from DSPs."
    ["prometheus_identifier"; "tenant_identifier"; "dsp_identifier"; "status"].
Definition DSPLatencyHistogram : Desc :=
  mkDesc "rtb_dsp_latency_seconds" "Latency of RTB responses from DSPs in seconds."
    ["prometheus_identifier"; "tenant_identifier"; "dsp_identifier"].
Definition AuctionCounter : Desc :=
  mkDesc "rtb_auctions_total" "Total number of RTB auctions conducted." ["status"].










(** The metric an effect of the handler updates, with its label values
    (the arguments of [WithLabelValues]). *)
Definition effect_metric (e : Auction.Effect) : option (string * list string) :=
  match e with
  | Auction.AuctionInc s => Some (Name AuctionCounter, [s])
  | Auction.SSPRequestInc p t i => Some (Name SSPRequestCounter, [p; t; i])
  | Auction.SSPResponseInc p t i s => Some (Name SSPResponseCounter, [p; t; i; s])
  | Auction.DSPRequestInc p t d => Some (Name DSPRequestCounter, [p; t; d])
  | Auction.DSPCall _ _ => None
  | Auction.DSPLatencyObserve p t d => Some (Name DSPLatencyHistogram, [p; t; d])
  | Auction.DSPResponseInc p t d s => Some (Name DSPResponseCounter, [p; t; d; s])
  | Auction.BidLog _ => None
  end.

(** How many updates of collector [c] a list of effects makes. *)
Definition count (c : Desc) (fx : list Auction.Effect) : nat :=
  List.length (filter (fun e => match effect_metric e with
                                | Some (n, _) => String.eqb n (Name c)
                                | None => false
                                end) fx).

(** The DSP calls among the effects, with the body sent. *)
Definition dsp_calls (fx : list Auction.Effect) : list (DSPInventory.t * list Z) :=
  flat_map (fun e => match e with Auction.DSPCall d b => [(d, b)] | _ => [] end) fx.

End Metrics.

(* ------------------------------------------------------------------ *)
(** ** [endpoints.NewStatusEndpoint] *)

Module Endpoints.

(** The handler [NewStatusEndpoint(response)] returns, given
    [time.Now().Format(time.RFC3339)]: [w.Write] of the [fmt.Sprintf] text
    without a [WriteHeader], so the status is 200.  (The 204 branch for an
    empty [response] is commented out.) *)
Definition NewStatusEndpoint (response : string) (currentTime : string) : Z * string :=
  (200, (response ++ ". T35 Prebid Server is running, Current Request Time: "
         ++ currentTime ++ Logging.newline)%string).

End Endpoints.

(* ------------------------------------------------------------------ *)
(** ** Sample data used by the concrete instances below *)

Module Fixtures.
Open Scope string_scope.

Definition ssp (status : string) : SSPInventory.t :=
  SSPInventory.mk "ssp" 1 "inv" status "acc-1" "tenant-a" "ssp-a" 10 20 30 "p" "prom-ssp" ["banner"].

Definition dsp (src country blacklist : list string) : DSPInventory.t :=
  DSPInventory.mk "dsp" "dsp-a" "ep" "http://dsp.example/bid" 100 300 1 "dinv" "Active" "" ""
    ["banner"] src country blacklist [] [] [] [] [] [] [] "tenant-a" 10 40 50 "p" "prom-dsp".

Definition cfg (s : SSPInventory.t) : PartnersConfig.t :=
  PartnersConfig.mk [s] [dsp [] [] []] true "ts".

Definition req (tmax : Z) (country : string) : BidRequest.t :=
  BidRequest.mk "req-1" tmax (Some (App.mk "app-1" "game" "com.x" "x.com")) None
    (Some (Device.mk (Some (Geo.mk country)))) [Imp.mk true false false false 0].

Definition logger : Logging.BidLogger :=
  Logging.mkBidLogger (Logging.mkChan [] false) 10 [] true "host-1".

(** An event whose auction id is the single byte 0xFF, not valid UTF-8. *)
Definition bad_event : Generated.AuctionEvent.t :=
  Generated.AuctionEvent.mk 10 20 30 (String (ascii_of_nat 255) EmptyString) 40 50
    4612811918334230528 0 [123; 125] [123; 125] None "" 0.

Definition good_event : Generated.AuctionEvent.t :=
  Generated.AuctionEvent.mk 10 20 30 "req-1" 40 50 4612811918334230528 4602678819172646912
    [123; 125] [123; 125]
    (Some (Generated.AuctionEvent_App (Generated.App.mk "app-1" "game" "com.x" "x.com")))
    "host-1" 1760000000000.

(** One DSP bidding 2.5 on the sample configuration. *)
Definition winning_response : BidResponse.t :=
  BidResponse.mk "resp-1" [SeatBid.mk [Bid.mk "bid-1" 4612811918334230528]].

End Fixtures.

(* ================================================================== *)
(** * Properties *)

(** ** Partner registry *)

Lemma dsps_loop_filter : forall tid l acc,
  Manager.dsps_loop tid l acc =
  acc ++ filter (fun d => (DSPInventory.TenantID d =? tid)
                          && String.eqb (DSPInventory.Status d) "Active") l.
Proof.
  intros tid l; induction l as [|d r IH]; intros acc; simpl.
  - now rewrite app_nil_r.
  - destruct ((DSPInventory.TenantID d =? tid) && String.eqb (DSPInventory.Status d) "Active");
      rewrite IH; [now rewrite <- app_assoc | reflexivity].
Qed.

(** C6: [GetDSPsByTenant] returns exactly the snapshot's DSP records with
    the given tenant id and status "Active", in snapshot order, and the
    empty list when no configuration has been loaded. *)
Theorem GetDSPsByTenant_spec : forall (m : Manager.t) (tenantID : Z),
  Manager.GetDSPsByTenant m tenantID =
  match Manager.GetConfig m with
  | None => []
  | Some cfg =>
      filter (fun d => (DSPInventory.TenantID d =? tenantID)
                       && String.eqb (DSPInventory.Status d) "Active")
             (PartnersConfig.DSPInventories cfg)
  end.
Proof.
  intros m tid; unfold Manager.GetDSPsByTenant.
  destruct (Manager.GetConfig m); [apply dsps_loop_filter | reflexivity].
Qed.

(** C5: [Load] fails exactly when the file cannot be read or does not
    decode; on failure the snapshot returned by [GetConfig] is unchanged, on
    success it is the decoded configuration. *)
Theorem Load_error_spec :
  forall (ReadFile : string -> option (list Z)) (Unmarshal : list Z -> option PartnersConfig.t)
         (path : string) (m : Manager.t),
  let '(err, m') := Manager.Load ReadFile Unmarshal path m in
  (err <> None <->
     (ReadFile path = None \/ exists data, ReadFile path = Some data /\ Unmarshal data = None))
  /\ (err <> None -> Manager.GetConfig m' = Manager.GetConfig m)
  /\ (err = None -> exists data cfg, ReadFile path = Some data /\ Unmarshal data = Some cfg
                                     /\ Manager.GetConfig m' = Some cfg).
Proof.
  intros rf un path m; unfold Manager.Load.
  destruct (rf path) as [data|] eqn:Hr.
  - destruct (un data) as [cfg|] eqn:Hu.
    + split; [|split].
      * split; [congruence|]. intros [H|[d [Hd Hn]]]; [discriminate|].
        injection Hd as <-; congruence.
      * congruence.
      * intros _; exists data, cfg; auto.
    + split; [|split].
      * split; [intros _; right; exists data; auto | discriminate].
      * reflexivity.
      * discriminate.
  - split; [|split].
    + split; [intros _; left; reflexivity | discriminate].
    + reflexivity.
    + discriminate.
Qed.

(** ** Bid logger: [Close] *)

(** C7: a second [Close] on the same logger panics ("close of closed
    channel"): whatever the logger, [Close] followed by [Close] panics. *)
Theorem Close_twice_panics : forall l : Logging.BidLogger,
  Logging.Close_then_Close l = Logging.Panic "close of closed channel".
Proof.
  intros l; unfold Logging.Close_then_Close, Logging.Close.
  destruct (Logging.closed (Logging.logChan l)); reflexivity.
Qed.

(** ** Auction endpoint: TMax rejection *)

(** C2: once the SSP is identified and the body decodes, a request with
    [TMax <= 120] increments [rtb_auctions_total{rejected_tmax}] and
    [rtb_ssp_responses_total{..., error}], is answered 204 with no body, and
    no DSP is called. *)
Theorem Handle_rejects_low_tmax {tables : UnicodeTables} :
  forall UnmarshalReq CallDSP Arrival MarshalResp BidLoggerPresent
         (m : Manager.t) (cfg : PartnersConfig.t) (code : string) (body : list Z)
         (ssp : SSPInventory.t) (bidReq : BidRequest.t),
  Manager.GetConfig m = Some cfg ->
  PartnersConfig.AdServing cfg = true ->
  code <> EmptyString ->
  Manager.GetSSPByInventoryCode m code = Some ssp ->
  UnmarshalReq body = Some bidReq ->
  BidRequest.TMax bidReq <= 120 ->
  let p := SSPInventory.PrometheusIdentifier ssp in
  let t := SSPInventory.TenantIdentifier ssp in
  let i := SSPInventory.SSPIdentifier ssp in
  let '(fx, r) := Auction.Handle UnmarshalReq CallDSP Arrival MarshalResp BidLoggerPresent
                    m code (Some body) in
  fx = [Auction.SSPRequestInc p t i; Auction.AuctionInc "rejected_tmax";
        Auction.SSPResponseInc p t i "error"]
  /\ r = Auction.mkResponse 204 Auction.NoBody
  /\ (forall d b, ~ In (Auction.DSPCall d b) fx)
  /\ (forall p' t' i', ~ In (Auction.DSPRequestInc p' t' i') fx).
Proof.
  intros un call arr mar lg m cfg code body ssp bidReq Hc Ha Hcode Hssp Hun Ht p t i.
  unfold Auction.Handle. rewrite Hc, Ha, Hssp, Hun.
  apply String.eqb_neq in Hcode. rewrite Hcode. simpl.
  apply Z.leb_le in Ht. rewrite Ht.
  split; [reflexivity|]. split; [reflexivity|].
  split; intros; simpl; intros [H|[H|[H|H]]]; discriminate || contradiction.
Qed.

Section Handle_rejects_low_tmax_example.
#[local] Existing Instance no_tables.

Lemma Handle_rejects_low_tmax_witness :
  let m := Some (Fixtures.cfg (Fixtures.ssp "Active")) in
  let un := fun _ : list Z => Some (Fixtures.req 100 "US") in
  Manager.GetConfig m = Some (Fixtures.cfg (Fixtures.ssp "Active"))
  /\ PartnersConfig.AdServing (Fixtures.cfg (Fixtures.ssp "Active")) = true
  /\ "acc-1"%string <> EmptyString
  /\ Manager.GetSSPByInventoryCode m "acc-1" = Some (Fixtures.ssp "Active")
  /\ un [123; 125] = Some (Fixtures.req 100 "US")
  /\ BidRequest.TMax (Fixtures.req 100 "US") <= 120
  /\ (let '(fx, r) := Auction.Handle un (fun _ _ _ => None) (fun l => l) (fun _ => []) true
                        m "acc-1" (Some [123; 125]) in
      fx = [Auction.SSPRequestInc "prom-ssp" "tenant-a" "ssp-a";
            Auction.AuctionInc "rejected_tmax";
            Auction.SSPResponseInc "prom-ssp" "tenant-a" "ssp-a" "error"]
      /\ r = Auction.mkResponse 204 Auction.NoBody
      /\ (forall d b, ~ In (Auction.DSPCall d b) fx)
      /\ (forall p' t' i', ~ In (Auction.DSPRequestInc p' t' i') fx)).
Proof.
  intros m un.
  split; [reflexivity|]. split; [reflexivity|]. split; [discriminate|].
  split; [reflexivity|]. split; [reflexivity|]. split; [simpl; lia|].
  exact (Handle_rejects_low_tmax un (fun _ _ _ => None) (fun l => l) (fun _ => []) true
           m (Fixtures.cfg (Fixtures.ssp "Active")) "acc-1" [123; 125]
           (Fixtures.ssp "Active") (Fixtures.req 100 "US")
           eq_refl eq_refl ltac:(discriminate) eq_refl eq_refl ltac:(simpl; lia)).
Defined.

End Handle_rejects_low_tmax_example.

(** ** Shortlisting *)

Lemma shortlist_loop_spec {tables : UnicodeTables} : forall req N cands acc,
  (List.length acc < Z.to_nat N)%nat ->
  Targeting.shortlist_loop req N cands acc =
  acc ++ firstn (Z.to_nat N - List.length acc) (filter (Targeting.MatchTargeting req) cands).
Proof.
  intros req N cands; induction cands as [|d r IH]; intros acc Hlt; simpl.
  - now rewrite firstn_nil, app_nil_r.
  - destruct (Targeting.MatchTargeting req d).
    + rewrite length_app; simpl.
      destruct (Z.of_nat (List.length acc + 1) >=? N) eqn:Hge.
      * apply Z.geb_le in Hge.
        replace (Z.to_nat N - List.length acc)%nat with 1%nat by lia. reflexivity.
      * rewrite Z.geb_leb, Z.leb_gt in Hge. rewrite IH by (rewrite length_app; simpl; lia).
        rewrite length_app; simpl.
        replace (Z.to_nat N - List.length acc)%nat
          with (S (Z.to_nat N - (List.length acc + 1)))%nat by lia.
        simpl. now rewrite <- app_assoc.
    + apply IH; exact Hlt.
Qed.

(** For a limit [N >= 1] (the handler passes 5) the shortlist is the prefix
    of length at most [N] of the candidates accepted by [MatchTargeting]. *)
Lemma ShortlistDSPs_prefix {tables : UnicodeTables} : forall req cands N,
  1 <= N ->
  Targeting.ShortlistDSPs req cands N =
    firstn (Z.to_nat N) (filter (Targeting.MatchTargeting req) cands)
  /\ (List.length (Targeting.ShortlistDSPs req cands N) <= Z.to_nat N)%nat.
Proof.
  intros req cands N HN. unfold Targeting.ShortlistDSPs.
  rewrite shortlist_loop_spec by (simpl; lia). simpl.
  rewrite Nat.sub_0_r. split; [reflexivity|]. apply firstn_le_length.
Qed.

(** C3: with the limit 0 and one candidate that matches, the shortlist has
    one element: the length test runs only after the [append]. *)
Theorem ShortlistDSPs_limit_zero {tables : UnicodeTables} :
  Targeting.MatchTargeting (Fixtures.req 300 "US") (Fixtures.dsp [] [] []) = true
  /\ Targeting.ShortlistDSPs (Fixtures.req 300 "US") [Fixtures.dsp [] [] []] 0
     = [Fixtures.dsp [] [] []].
Proof. split; reflexivity. Qed.

(** ** Targeting: the country rule *)

Lemma runes_of_cons : forall b bs, 0 <= b ->
  exists x xs, runes_of (b :: bs) = x :: xs /\ 0 <= x.
Proof.
  intros b bs Hb. cbn [runes_of].
  repeat match goal with
         | |- context [if ?c then _ else _] => destruct c
         | |- context [match ?l with [] => _ | _ :: _ => _ end] => destruct l
         end;
    (eexists _, _; split; [reflexivity|]);
    unfold RuneError; try lia;
    repeat first [ apply Z.add_nonneg_nonneg | apply Z.mul_nonneg_nonneg
                 | apply (proj2 (Z.land_nonneg _ _)); right | lia ].
Qed.

Lemma encode_rune_nonempty : forall r, encode_rune r <> [].
Proof.
  intros r. unfold encode_rune. cbv zeta.
  repeat match goal with |- context [if ?c then _ else _] => destruct c end; discriminate.
Qed.

(** [ToUpper] of a non-empty string is non-empty: the fast path keeps the
    length, and [Map] writes at least one byte for the first rune. *)
Lemma ToUpper_nonempty {tables : UnicodeTables} : forall s, s <> EmptyString -> ToUpper s <> EmptyString.
Proof.
  intros [|c r] Hne; [contradiction|]. unfold ToUpper. cbv zeta.
  destruct (forallb _ _).
  - destruct (negb _); [discriminate | cbn; discriminate].
  - unfold Map.
    change (to_bytes (String c r)) with (Z.of_nat (nat_of_ascii c) :: to_bytes r).
    destruct (runes_of_cons (Z.of_nat (nat_of_ascii c)) (to_bytes r)) as [x [xs [Hr Hx]]];
      [lia|].
    rewrite Hr. cbn [flat_map].
    assert (Hu : 0 <= unicode_ToUpper x).
    { unfold unicode_ToUpper.
      destruct (x <=? 127); [destruct (in_range 97 122 x) eqn:E; [|lia]|apply To_rune; lia].
      unfold in_range in E. apply andb_true_iff in E. destruct E as [E _].
      apply Z.leb_le in E. lia. }
    apply Z.leb_le in Hu. rewrite Hu.
    destruct (encode_rune (unicode_ToUpper x)) as [|y ys] eqn:He;
      [exfalso; exact (encode_rune_nonempty _ He)|].
    unfold of_bytes. cbn. discriminate.
Qed.

(** C4: for a request whose device country [c] is non-empty, a blacklist
    entry equal to [c] up to case makes [MatchTargeting] false whatever the
    whitelist holds; with no such entry, a whitelist holding "ANY" makes the
    country rule pass. *)
Theorem MatchTargeting_country_rule {tables : UnicodeTables} :
  forall (req : BidRequest.t) (dsp : DSPInventory.t) (d : Device.t) (g : Geo.t),
  BidRequest.Device req = Some d ->
  Device.Geo d = Some g ->
  Geo.Country g <> EmptyString ->
  ((exists bc, In bc (DSPInventory.CountryBlackList dsp)
               /\ ToUpper bc = ToUpper (Geo.Country g)) ->
   Targeting.MatchTargeting req dsp = false)
  /\ ((forall bc, In bc (DSPInventory.CountryBlackList dsp) ->
                  ToUpper bc <> ToUpper (Geo.Country g)) ->
      In "ANY"%string (DSPInventory.Country dsp) ->
      Targeting.country_rule req dsp = true).
Proof.
  intros req dsp d g Hd Hg Hc.
  assert (Hco : Targeting.country_of req = ToUpper (Geo.Country g))
    by (unfold Targeting.country_of; now rewrite Hd, Hg).
  assert (Hne : String.eqb (ToUpper (Geo.Country g)) EmptyString = false)
    by (apply String.eqb_neq, ToUpper_nonempty, Hc).
  split.
  - intros [bc [Hin Heq]].
    assert (Hbl : Targeting.country_blacklisted (ToUpper (Geo.Country g)) dsp = true).
    { apply existsb_exists. exists bc. split; [exact Hin|]. now apply String.eqb_eq. }
    assert (Hcr : Targeting.country_rule req dsp = false).
    { unfold Targeting.country_rule. rewrite Hco, Hne, Hbl. reflexivity. }
    unfold Targeting.MatchTargeting. rewrite Hcr.
    destruct (Targeting.source_rule req dsp); reflexivity.
  - intros Hno Hany.
    unfold Targeting.country_rule. rewrite Hco, Hne. simpl.
    destruct (Targeting.country_blacklisted (ToUpper (Geo.Country g)) dsp) eqn:Hbl.
    + apply existsb_exists in Hbl. destruct Hbl as [bc [Hin Heq]].
      apply String.eqb_eq in Heq. exfalso. exact (Hno bc Hin Heq).
    + destruct (DSPInventory.Country dsp) as [|w ws] eqn:Hw; [contradiction|].
      simpl. unfold Targeting.country_whitelisted. rewrite Hw.
      apply existsb_exists. exists "ANY"%string. split; [exact Hany|].
      apply orb_true_r.
Qed.

Section MatchTargeting_country_rule_example.
#[local] Existing Instance no_tables.

Lemma MatchTargeting_country_rule_witness :
  BidRequest.Device (Fixtures.req 300 "us") = Some (Device.mk (Some (Geo.mk "us")))
  /\ Device.Geo (Device.mk (Some (Geo.mk "us"))) = Some (Geo.mk "us")
  /\ Geo.Country (Geo.mk "us") <> EmptyString
  /\ (((exists bc, In bc (DSPInventory.CountryBlackList (Fixtures.dsp [] ["ANY"%string] ["Us"%string]))
                   /\ ToUpper bc = ToUpper (Geo.Country (Geo.mk "us"))) ->
       Targeting.MatchTargeting (Fixtures.req 300 "us") (Fixtures.dsp [] ["ANY"%string] ["Us"%string]) = false)
      /\ ((forall bc, In bc (DSPInventory.CountryBlackList (Fixtures.dsp [] ["ANY"%string] ["Us"%string])) ->
                      ToUpper bc <> ToUpper (Geo.Country (Geo.mk "us"))) ->
          In "ANY"%string (DSPInventory.Country (Fixtures.dsp [] ["ANY"%string] ["Us"%string])) ->
          Targeting.country_rule (Fixtures.req 300 "us") (Fixtures.dsp [] ["ANY"%string] ["Us"%string]) = true)).
Proof.
  split; [reflexivity|]. split; [reflexivity|]. split; [discriminate|].
  exact (MatchTargeting_country_rule (Fixtures.req 300 "us") (Fixtures.dsp [] ["ANY"%string] ["Us"%string])
           (Device.mk (Some (Geo.mk "us"))) (Geo.mk "us") eq_refl eq_refl ltac:(discriminate)).
Defined.

End MatchTargeting_country_rule_example.

(** ** Winner selection *)

(** Comparisons of [float64] reduce to comparisons of keys once NaN is
    split off. *)
Ltac float_cmp :=
  unfold Float64.le, Float64.ge, Float64.gt in *;
  repeat match goal with
         | H : context [Float64.is_nan _] |- _ => revert H
         end;
  repeat match goal with
         | |- context [Float64.is_nan ?x] => destruct (Float64.is_nan x)
         end;
  intros; simpl in *;
  repeat match goal with
         | H : context [Z.ltb _ _] |- _ => revert H
         | H : context [Z.leb _ _] |- _ => revert H
         end;
  repeat match goal with
         | |- context [?x <? ?y] => destruct (Z.ltb_spec x y)
         | |- context [?x <=? ?y] => destruct (Z.leb_spec x y)
         end;
  intros; simpl in *; try discriminate; try reflexivity; try lia.

Lemma fold_left_flat_map : forall (A B C : Type) (f : A -> B -> A) (g : C -> list B) l a,
  fold_left f (flat_map g l) a = fold_left (fun a x => fold_left f (g x) a) l a.
Proof.
  intros A B C f g l; induction l as [|x r IH]; intros a; simpl; [reflexivity|].
  now rewrite fold_left_app, IH.
Qed.

Lemma fold_left_ext_pointwise : forall (A B : Type) (f g : A -> B -> A) l a,
  (forall a x, f a x = g a x) -> fold_left f l a = fold_left g l a.
Proof.
  intros A B f g l; induction l as [|x r IH]; intros a H; simpl; [reflexivity|].
  rewrite H. now apply IH.
Qed.

Lemma bid_fold_pairs : forall r bs acc,
  fold_left (Auction.bid_step r) bs acc
  = fold_left Auction.pair_step (map (fun b => (r, Bid.Price b)) bs) acc.
Proof.
  intros r bs; induction bs as [|b bs IH]; intros [best mx]; cbn [fold_left map]; [reflexivity|].
  rewrite <- IH. unfold Auction.pair_step, Auction.bid_step; cbn [fst snd]. reflexivity.
Qed.

Lemma select_flat : forall rs,
  Auction.select rs = fold_left Auction.pair_step (Auction.flat rs) (None, Float64.zero).
Proof.
  intros rs. unfold Auction.select, Auction.flat.
  rewrite fold_left_flat_map. apply fold_left_ext_pointwise. intros acc r.
  unfold Auction.result_step, Auction.pairs. rewrite fold_left_flat_map.
  apply fold_left_ext_pointwise. intros acc' sb. apply bid_fold_pairs.
Qed.

Lemma in_pairs : forall r x p,
  In (x, p) (Auction.pairs r) <-> x = r /\ In p (Auction.prices r).
Proof.
  intros r x p. unfold Auction.pairs, Auction.prices.
  rewrite !in_flat_map. split.
  - intros [sb [Hsb Hin]]. apply in_map_iff in Hin. destruct Hin as [b [Hb Hbin]].
    injection Hb as <- <-. split; [reflexivity|]. exists sb; split; [exact Hsb|].
    now apply in_map.
  - intros [-> [sb [Hsb Hin]]]. exists sb; split; [exact Hsb|].
    apply in_map_iff in Hin. destruct Hin as [b [<- Hbin]].
    apply in_map_iff. exists b; auto.
Qed.

Lemma in_flat : forall rs r p,
  In (r, p) (Auction.flat rs) <-> In r rs /\ In p (Auction.prices r).
Proof.
  intros rs r p. unfold Auction.flat. rewrite in_flat_map. split.
  - intros [x [Hx Hin]]. apply in_pairs in Hin. destruct Hin as [-> Hp]. auto.
  - intros [Hr Hp]. exists r. split; [exact Hr|]. now apply in_pairs.
Qed.

Lemma gt_not_nan : forall a b, Float64.gt a b = true -> Float64.is_nan a = false.
Proof. intros a b H. float_cmp. Qed.

Lemma gt_irrefl : forall a, Float64.gt a a = false.
Proof. intros a. float_cmp. Qed.

Lemma gt_trans : forall a b c,
  Float64.gt a b = true -> Float64.gt b c = true -> Float64.gt a c = true.
Proof. intros a b c H1 H2. float_cmp. Qed.

Lemma gt_asym : forall a b, Float64.gt a b = true -> Float64.gt b a = false.
Proof. intros a b H. float_cmp. Qed.

Lemma gt_ge_false : forall a b, Float64.gt a b = true -> Float64.ge b a = false.
Proof. intros a b H. float_cmp. Qed.

Lemma below_max : forall a m p,
  Float64.gt a m = false -> Float64.gt p m = true ->
  Float64.gt a p = false /\ Float64.ge a p = false.
Proof. intros a m p H1 H2. split; float_cmp. Qed.

Lemma le_not_gt : forall a b, Float64.le a b = true -> Float64.gt a b = false.
Proof. intros a b H. float_cmp. Qed.

(** The running maximum: either no element beats the start value, or the
    result is the first pair carrying the greatest price. *)
Lemma fold_max : forall xs b m,
  Float64.is_nan m = false ->
  (fold_left Auction.pair_step xs (b, m) = (b, m)
   /\ forall x, In x xs -> Float64.gt (snd x) m = false)
  \/ exists ys r p zs,
       xs = ys ++ (r, p) :: zs
       /\ fold_left Auction.pair_step xs (b, m) = (Some r, p)
       /\ Float64.gt p m = true
       /\ (forall x, In x xs -> Float64.gt (snd x) p = false)
       /\ (forall x, In x ys -> Float64.ge (snd x) p = false).
Proof.
  intros xs; induction xs as [|[r0 p0] xs IH]; intros b m Hm.
  - left. split; [reflexivity | intros x []].
  - simpl. replace (Auction.pair_step (b, m) (r0, p0))
      with (if Float64.gt p0 m then (Some r0, p0) else (b, m)) by reflexivity.
    destruct (Float64.gt p0 m) eqn:Hgt.
    + destruct (IH (Some r0) p0 (gt_not_nan p0 m Hgt))
        as [[Hf Hall] | [ys [r [p [zs [Hxs [Hf [Hgt' [Hall Hys]]]]]]]]].
      * right. exists [], r0, p0, xs. split; [reflexivity|]. split; [exact Hf|].
        split; [exact Hgt|]. split; [|intros x []].
        intros x [<- | Hx]; [apply gt_irrefl | exact (Hall x Hx)].
      * right. exists ((r0, p0) :: ys), r, p, zs. split; [simpl; now rewrite Hxs|].
        split; [exact Hf|]. split; [exact (gt_trans p p0 m Hgt' Hgt)|]. split.
        -- intros x [<- | Hx]; [exact (gt_asym p p0 Hgt') | exact (Hall x Hx)].
        -- intros x [<- | Hx]; [exact (gt_ge_false p p0 Hgt') | exact (Hys x Hx)].
    + destruct (IH b m Hm) as [[Hf Hall] | [ys [r [p [zs [Hxs [Hf [Hgt' [Hall Hys]]]]]]]]].
      * left. split; [exact Hf|]. intros x [<- | Hx]; [exact Hgt | exact (Hall x Hx)].
      * right. exists ((r0, p0) :: ys), r, p, zs. split; [simpl; now rewrite Hxs|].
        split; [exact Hf|]. split; [exact Hgt'|]. split.
        -- intros x [<- | Hx]; [exact (proj1 (below_max p0 m p Hgt Hgt')) | exact (Hall x Hx)].
        -- intros x [<- | Hx]; [exact (proj2 (below_max p0 m p Hgt Hgt')) | exact (Hys x Hx)].
Qed.

Lemma flat_split : forall rs ys w m zs,
  Auction.flat rs = ys ++ (w, m) :: zs ->
  exists pre post, rs = pre ++ w :: post
    /\ In m (Auction.prices w)
    /\ (forall r p, In r pre -> In p (Auction.prices r) -> In p (map snd ys)).
Proof.
  intros rs; induction rs as [|r rs IH]; intros ys w m zs H.
  - destruct ys; discriminate.
  - unfold Auction.flat in H; simpl in H; fold (Auction.flat rs) in H.
    apply app_eq_app in H. destruct H as [l [[Hp Hrest] | [Hys Hrest]]].
    + destruct l as [|x l].
      * rewrite app_nil_r in Hp. simpl in Hrest.
        destruct (IH [] w m zs (eq_sym Hrest)) as [pre [post [Hrs [Hm Hpre]]]].
        exists (r :: pre), post. split; [simpl; now rewrite Hrs|]. split; [exact Hm|].
        intros r' p [Hrr | Hr'] Hp'.
        -- rewrite <- Hp. apply in_map_iff. subst r'. exists (r, p). split; [reflexivity|].
           now apply in_pairs.
        -- destruct (Hpre r' p Hr' Hp').
      * simpl in Hrest. injection Hrest as Hx _. subst x.
        assert (Hin : In (w, m) (Auction.pairs r)) by (rewrite Hp; apply in_or_app; right; left; reflexivity).
        apply in_pairs in Hin. destruct Hin as [-> Hm].
        exists [], rs. split; [reflexivity|]. split; [exact Hm|]. intros r' p [].
    + destruct (IH l w m zs Hrest) as [pre [post [Hrs [Hm Hpre]]]].
      exists (r :: pre), post. split; [simpl; now rewrite Hrs|]. split; [exact Hm|].
      rewrite Hys, map_app.
      intros r' p [Hrr | Hr'] Hp'; apply in_or_app.
      * left. apply in_map_iff. subst r'. exists (r, p). split; [reflexivity|]. now apply in_pairs.
      * right. exact (Hpre r' p Hr' Hp').
Qed.

(** C1 (as the code has it): when some received bid has a price above 0,
    the winner is the first received response that carries a bid of the
    greatest price, and [maxPrice] is that price: no bid is greater, every
    bid of an earlier response is smaller, and a later bid of equal price
    does not replace it.  When no received bid has a price above 0 there is
    no winner: [maxPrice] starts at 0 and only a strictly greater price
    replaces it, so it stays 0. *)
Theorem select_winner : forall rs : list Auction.bidResult,
  ((exists r p, In r rs /\ In p (Auction.prices r) /\ Float64.gt p Float64.zero = true) ->
   exists pre w post m,
     rs = pre ++ w :: post
     /\ Auction.select rs = (Some w, m)
     /\ In m (Auction.prices w)
     /\ Float64.gt m Float64.zero = true
     /\ (forall r p, In r rs -> In p (Auction.prices r) -> Float64.gt p m = false)
     /\ (forall r p, In r pre -> In p (Auction.prices r) -> Float64.ge p m = false))
  /\ ((forall r p, In r rs -> In p (Auction.prices r) -> Float64.gt p Float64.zero = false) ->
      Auction.select rs = (None, Float64.zero)).
Proof.
  intros rs. rewrite select_flat. split.
  - intros [r0 [p0 [Hr0 [Hp0 Hgt0]]]].
    destruct (fold_max (Auction.flat rs) None Float64.zero eq_refl)
      as [[_ Hall] | [ys [w [m [zs [Hxs [Hf [Hgt [Hall Hys]]]]]]]]].
    + exfalso. assert (Hin : In (r0, p0) (Auction.flat rs)) by (apply in_flat; auto).
      specialize (Hall _ Hin). simpl in Hall. congruence.
    + destruct (flat_split rs ys w m zs Hxs) as [pre [post [Hrs [Hm Hpre]]]].
      exists pre, w, post, m. split; [exact Hrs|]. split; [exact Hf|]. split; [exact Hm|].
      split; [exact Hgt|]. split.
      * intros r p Hr Hp. exact (Hall (r, p) (proj2 (in_flat rs r p) (conj Hr Hp))).
      * intros r p Hr Hp. specialize (Hpre r p Hr Hp).
        apply in_map_iff in Hpre. destruct Hpre as [[x q] [Hq Hx]]. simpl in Hq; subst q.
        exact (Hys (x, p) Hx).
  - intros Hno.
    destruct (fold_max (Auction.flat rs) None Float64.zero eq_refl)
      as [[Hf _] | [ys [w [m [zs [Hxs [Hf [Hgt [Hall Hys]]]]]]]]]; [exact Hf|].
    exfalso.
    assert (Hin : In (w, m) (Auction.flat rs))
      by (rewrite Hxs; apply in_or_app; right; left; reflexivity).
    apply in_flat in Hin. destruct Hin as [Hw Hm].
    specialize (Hno w m Hw Hm). congruence.
Qed.

Lemma select_winner_witness :
  let r1 := Auction.mkBidResult (BidResponse.mk "a" [SeatBid.mk [Bid.mk "a1" 4607632778762754458]])
              (Fixtures.dsp [] [] []) in
  let r2 := Auction.mkBidResult (BidResponse.mk "b" [SeatBid.mk [Bid.mk "b1" 4612811918334230528]])
              (Fixtures.dsp [] [] []) in
  let r0 := Auction.mkBidResult (BidResponse.mk "c" [SeatBid.mk [Bid.mk "c1" 0]])
              (Fixtures.dsp [] [] []) in
  ((exists r p, In r [r1; r2] /\ In p (Auction.prices r) /\ Float64.gt p Float64.zero = true)
   /\ exists pre w post m,
     [r1; r2] = pre ++ w :: post
     /\ Auction.select [r1; r2] = (Some w, m)
     /\ In m (Auction.prices w)
     /\ Float64.gt m Float64.zero = true
     /\ (forall r p, In r [r1; r2] -> In p (Auction.prices r) -> Float64.gt p m = false)
     /\ (forall r p, In r pre -> In p (Auction.prices r) -> Float64.ge p m = false))
  /\ ((forall r p, In r [r0] -> In p (Auction.prices r) -> Float64.gt p Float64.zero = false)
      /\ Auction.select [r0] = (None, Float64.zero)).
Proof.
  intros r1 r2 r0.
  assert (H : exists r p, In r [r1; r2] /\ In p (Auction.prices r)
                          /\ Float64.gt p Float64.zero = true).
  { exists r2, 4612811918334230528. split; [right; left; reflexivity|].
    split; [left; reflexivity | vm_compute; reflexivity]. }
  assert (H0 : forall r p, In r [r0] -> In p (Auction.prices r) -> Float64.gt p Float64.zero = false).
  { intros r p [<-|[]] [<-|[]]. vm_compute. reflexivity. }
  split.
  - split; [exact H | exact (proj1 (select_winner [r1; r2]) H)].
  - split; [exact H0 | exact (proj2 (select_winner [r0]) H0)].
Defined.

(** C1 as stated fails: a response whose only bid has price 0.0 holds the
    greatest bid received, yet no winner is selected. *)
Lemma select_zero_price_no_winner :
  let r0 := Auction.mkBidResult (BidResponse.mk "resp-1" [SeatBid.mk [Bid.mk "bid-1" 0]])
              (Fixtures.dsp [] [] []) in
  Auction.prices r0 = [Float64.zero]
  /\ Auction.select [r0] = (None, Float64.zero)
  /\ fst (Auction.select [r0]) <> Some r0.
Proof. simpl. split; [reflexivity|]. split; [reflexivity | discriminate]. Qed.

(** When no received bid has a price above 0, the selection ends with no
    winner and [maxPrice] 0. *)
Lemma select_no_positive_bid : forall rs,
  (forall r p, In r rs -> In p (Auction.prices r) -> Float64.le p Float64.zero = true) ->
  Auction.select rs = (None, Float64.zero).
Proof.
  intros rs Hle. rewrite select_flat.
  destruct (fold_max (Auction.flat rs) None Float64.zero eq_refl)
    as [[Hf _] | [ys [w [m [zs [Hxs [Hf [Hgt [Hall Hys]]]]]]]]]; [exact Hf|].
  exfalso.
  assert (Hin : In (w, m) (Auction.flat rs)) by (rewrite Hxs; apply in_or_app; right; left; reflexivity).
  apply in_flat in Hin. destruct Hin as [Hw Hm].
  specialize (Hle w m Hw Hm). apply le_not_gt in Hle. congruence.
Qed.

(** The fan-out never logs an event and never counts an auction. *)
Lemma fan_out_effects : forall CallDSP tmax body dsps e,
  In e (fst (Auction.fan_out CallDSP tmax body dsps)) ->
  (forall ev, e <> Auction.BidLog ev) /\ (forall s, e <> Auction.AuctionInc s).
Proof.
  intros call tmax body dsps; induction dsps as [|d ds IH]; intros e He; simpl in He.
  - contradiction.
  - destruct (Auction.dsp_task call tmax body d) as [fx r] eqn:Hd.
    destruct (Auction.fan_out call tmax body ds) as [fxs rs] eqn:Hf.
    simpl in He, IH. apply in_app_or in He. destruct He as [He|He]; [|exact (IH e He)].
    unfold Auction.dsp_task in Hd.
    destruct (call tmax d body); injection Hd as <- _; simpl in He;
      (destruct He as [<-|[<-|[<-|[<-|[]]]]]; split; intros; discriminate).
Qed.

(** C9: when no bid received before the deadline is priced above 0 (every
    price is [<= 0]), the handler selects no winner: it answers 204 with no
    body, its last effect is [rtb_ssp_responses_total{..., no_bid}], and it
    neither logs an event nor counts an [ok] auction. *)
Theorem Handle_nonpositive_bids_no_winner {tables : UnicodeTables} :
  forall UnmarshalReq CallDSP Arrival MarshalResp BidLoggerPresent
         (m : Manager.t) (cfg : PartnersConfig.t) (code : string) (body : list Z)
         (ssp : SSPInventory.t) (bidReq : BidRequest.t),
  Manager.GetConfig m = Some cfg ->
  PartnersConfig.AdServing cfg = true ->
  code <> EmptyString ->
  Manager.GetSSPByInventoryCode m code = Some ssp ->
  UnmarshalReq body = Some bidReq ->
  120 < BidRequest.TMax bidReq ->
  (forall r p,
     In r (Auction.received CallDSP Arrival (BidRequest.TMax bidReq) body
             (Targeting.ShortlistDSPs bidReq
                (Manager.GetDSPsByTenant m (SSPInventory.TenantID ssp)) 5)) ->
     In p (Auction.prices r) -> Float64.le p Float64.zero = true) ->
  exists fx,
    Auction.Handle UnmarshalReq CallDSP Arrival MarshalResp BidLoggerPresent m code (Some body)
    = (fx ++ [Auction.SSPResponseInc (SSPInventory.PrometheusIdentifier ssp)
                (SSPInventory.TenantIdentifier ssp) (SSPInventory.SSPIdentifier ssp) "no_bid"],
       Auction.mkResponse 204 Auction.NoBody)
    /\ (forall ev, ~ In (Auction.BidLog ev) fx)
    /\ ~ In (Auction.AuctionInc "ok") fx.
Proof.
  intros un call arr mar lg m cfg code body ssp bidReq Hc Ha Hcode Hssp Hun Ht Hle.
  unfold Auction.Handle. rewrite Hc, Ha, Hssp, Hun.
  apply String.eqb_neq in Hcode. rewrite Hcode. simpl.
  destruct (Z.leb_spec (BidRequest.TMax bidReq) 120) as [Hle120|_]; [lia|].
  unfold Auction.received in Hle.
  destruct (Targeting.ShortlistDSPs bidReq (Manager.GetDSPsByTenant m (SSPInventory.TenantID ssp)) 5)
    as [|d ds] eqn:Hs.
  - exists [Auction.SSPRequestInc (SSPInventory.PrometheusIdentifier ssp)
              (SSPInventory.TenantIdentifier ssp) (SSPInventory.SSPIdentifier ssp)].
    split; [reflexivity|].
    split; [intros ev [H|[]]; discriminate | intros [H|[]]; discriminate].
  - destruct (Auction.fan_out call (BidRequest.TMax bidReq) body (d :: ds)) as [fx results] eqn:Hf.
    simpl in Hle.
    rewrite (select_no_positive_bid (arr results) Hle).
    exists (Auction.SSPRequestInc (SSPInventory.PrometheusIdentifier ssp)
              (SSPInventory.TenantIdentifier ssp) (SSPInventory.SSPIdentifier ssp) :: fx).
    split; [reflexivity|].
    assert (Hfx : forall e, In e fx ->
                  (forall ev, e <> Auction.BidLog ev) /\ (forall s, e <> Auction.AuctionInc s)).
    { intros e He. apply (fan_out_effects call (BidRequest.TMax bidReq) body (d :: ds)).
      now rewrite Hf. }
    split.
    + intros ev [H|H]; [discriminate|]. exact (proj1 (Hfx _ H) ev eq_refl).
    + intros [H|H]; [discriminate|]. exact (proj2 (Hfx _ H) "ok"%string eq_refl).
Qed.

Section Handle_nonpositive_bids_no_winner_example.
#[local] Existing Instance no_tables.

Lemma Handle_nonpositive_bids_no_winner_witness :
  let m := Some (Fixtures.cfg (Fixtures.ssp "Active")) in
  let un := fun _ : list Z => Some (Fixtures.req 300 "US") in
  let call := fun (_ : Z) (_ : DSPInventory.t) (_ : list Z) =>
                Some (BidResponse.mk "r" [SeatBid.mk [Bid.mk "b" 0]]) in
  Manager.GetConfig m = Some (Fixtures.cfg (Fixtures.ssp "Active"))
  /\ PartnersConfig.AdServing (Fixtures.cfg (Fixtures.ssp "Active")) = true
  /\ "acc-1"%string <> EmptyString
  /\ Manager.GetSSPByInventoryCode m "acc-1" = Some (Fixtures.ssp "Active")
  /\ un [123; 125] = Some (Fixtures.req 300 "US")
  /\ 120 < BidRequest.TMax (Fixtures.req 300 "US")
  /\ (forall r p,
        In r (Auction.received call (fun l => l) (BidRequest.TMax (Fixtures.req 300 "US")) [123; 125]
                (Targeting.ShortlistDSPs (Fixtures.req 300 "US")
                   (Manager.GetDSPsByTenant m (SSPInventory.TenantID (Fixtures.ssp "Active"))) 5)) ->
        In p (Auction.prices r) -> Float64.le p Float64.zero = true)
  /\ exists fx,
       Auction.Handle un call (fun l => l) (fun _ => []) true m "acc-1" (Some [123; 125])
       = (fx ++ [Auction.SSPResponseInc "prom-ssp" "tenant-a" "ssp-a" "no_bid"],
          Auction.mkResponse 204 Auction.NoBody)
       /\ (forall ev, ~ In (Auction.BidLog ev) fx)
       /\ ~ In (Auction.AuctionInc "ok") fx.
Proof.
  intros m un call.
  assert (Hle : forall r p,
        In r (Auction.received call (fun l => l) (BidRequest.TMax (Fixtures.req 300 "US")) [123; 125]
                (Targeting.ShortlistDSPs (Fixtures.req 300 "US")
                   (Manager.GetDSPsByTenant m (SSPInventory.TenantID (Fixtures.ssp "Active"))) 5)) ->
        In p (Auction.prices r) -> Float64.le p Float64.zero = true).
  { intros r p Hr Hp. vm_compute in Hr. destruct Hr as [<- | []].
    vm_compute in Hp. destruct Hp as [<- | []]. reflexivity. }
  split; [reflexivity|]. split; [reflexivity|]. split; [discriminate|].
  split; [reflexivity|]. split; [reflexivity|]. split; [simpl; lia|]. split; [exact Hle|].
  exact (Handle_nonpositive_bids_no_winner un call (fun l => l) (fun _ => []) true
           m (Fixtures.cfg (Fixtures.ssp "Active")) "acc-1" [123; 125]
           (Fixtures.ssp "Active") (Fixtures.req 300 "US")
           eq_refl eq_refl ltac:(discriminate) eq_refl eq_refl ltac:(simpl; lia) Hle).
Defined.

End Handle_nonpositive_bids_no_winner_example.

(** The lookup returns the first record carrying the code, whatever the
    records' [Status]. *)
Lemma find_ssp_first : forall code l s,
  In s l -> SSPInventory.InventoryCode s = code ->
  exists s', Manager.find_ssp code l = Some s' /\ SSPInventory.InventoryCode s' = code
             /\ (NoDup (map SSPInventory.InventoryCode l) -> s' = s).
Proof.
  intros code l s; induction l as [|x l IH]; intros Hin Hc; [contradiction|].
  simpl. destruct (String.eqb_spec (SSPInventory.InventoryCode x) code) as [Hx|Hx].
  - exists x. split; [reflexivity|]. split; [exact Hx|].
    intros Hnd. destruct Hin as [->|Hin]; [reflexivity|].
    simpl in Hnd. inversion Hnd as [|? ? Hnotin _]. exfalso. apply Hnotin.
    rewrite Hx, <- Hc. now apply in_map.
  - destruct Hin as [->|Hin]; [contradiction|].
    destruct (IH Hin Hc) as (s' & H1 & H2 & H3). exists s'.
    split; [exact H1|]. split; [exact H2|].
    intros Hnd. simpl in Hnd. inversion Hnd; auto.
Qed.

(** Once the code is found the request is authenticated: every path of the
    handler counts the SSP request first and none answers 401. *)
Lemma Handle_authenticated {tables : UnicodeTables} : forall UnmarshalReq CallDSP Arrival MarshalResp BidLoggerPresent
    m cfg code body ssp,
  Manager.GetConfig m = Some cfg ->
  PartnersConfig.AdServing cfg = true ->
  code <> EmptyString ->
  Manager.GetSSPByInventoryCode m code = Some ssp ->
  exists rest r,
    Auction.Handle UnmarshalReq CallDSP Arrival MarshalResp BidLoggerPresent m code body
    = (Auction.SSPRequestInc (SSPInventory.PrometheusIdentifier ssp)
         (SSPInventory.TenantIdentifier ssp) (SSPInventory.SSPIdentifier ssp) :: rest, r)
    /\ Auction.Code r <> 401.
Proof.
  intros un call arr mar lg m cfg code body ssp Hc Ha Hcode Hssp.
  unfold Auction.Handle. rewrite Hc, Ha, Hssp.
  apply String.eqb_neq in Hcode. rewrite Hcode. cbn [negb].
  destruct body as [body|]; [|do 2 eexists; split; [reflexivity|discriminate]].
  destruct (un body) as [bidReq|]; [|do 2 eexists; split; [reflexivity|discriminate]].
  destruct (BidRequest.TMax bidReq <=? 120); [do 2 eexists; split; [reflexivity|discriminate]|].
  destruct (Targeting.ShortlistDSPs bidReq (Manager.GetDSPsByTenant m (SSPInventory.TenantID ssp)) 5)
    as [|d ds]; [do 2 eexists; split; [reflexivity|discriminate]|].
  destruct (Auction.fan_out call (BidRequest.TMax bidReq) body (d :: ds)) as [fx results].
  destruct (Auction.select (arr results)) as [[best|] maxPrice];
    do 2 eexists; split; [reflexivity|discriminate| reflexivity|discriminate].
Qed.

(** C10: [GetSSPByInventoryCode] compares inventory codes only and never
    looks at [Status]: for every snapshot, an SSP record whose [Status] is not
    ["Active"] and whose code is not empty still authenticates a request
    carrying its code.  The lookup answers a record with that code (the
    record itself when codes are unique), and the handler counts the request
    for it and goes on to the auction instead of answering 401. *)
Theorem Handle_inactive_ssp_authenticates {tables : UnicodeTables} :
  forall UnmarshalReq CallDSP Arrival MarshalResp BidLoggerPresent
         (m : Manager.t) (cfg : PartnersConfig.t) (ssp : SSPInventory.t) body,
  Manager.GetConfig m = Some cfg ->
  PartnersConfig.AdServing cfg = true ->
  In ssp (PartnersConfig.SSPInventories cfg) ->
  SSPInventory.Status ssp <> "Active"%string ->
  SSPInventory.InventoryCode ssp <> EmptyString ->
  exists s',
    Manager.GetSSPByInventoryCode m (SSPInventory.InventoryCode ssp) = Some s'
    /\ SSPInventory.InventoryCode s' = SSPInventory.InventoryCode ssp
    /\ (NoDup (map SSPInventory.InventoryCode (PartnersConfig.SSPInventories cfg)) -> s' = ssp)
    /\ exists rest r,
         Auction.Handle UnmarshalReq CallDSP Arrival MarshalResp BidLoggerPresent
           m (SSPInventory.InventoryCode ssp) body
         = (Auction.SSPRequestInc (SSPInventory.PrometheusIdentifier s')
              (SSPInventory.TenantIdentifier s') (SSPInventory.SSPIdentifier s') :: rest, r)
         /\ Auction.Code r <> 401.
Proof.
  intros un call arr mar lg m cfg ssp body Hc Ha Hin _ Hcode.
  destruct (find_ssp_first (SSPInventory.InventoryCode ssp) _ ssp Hin eq_refl)
    as (s' & Hf & Hcs & Hnd).
  assert (Hg : Manager.GetSSPByInventoryCode m (SSPInventory.InventoryCode ssp) = Some s')
    by (unfold Manager.GetSSPByInventoryCode; rewrite Hc; exact Hf).
  exists s'. split; [exact Hg|]. split; [exact Hcs|]. split; [exact Hnd|].
  exact (Handle_authenticated un call arr mar lg m cfg _ body s' Hc Ha Hcode Hg).
Qed.

Section Handle_inactive_ssp_authenticates_example.
#[local] Existing Instance no_tables.

Lemma Handle_inactive_ssp_authenticates_witness :
  Manager.GetConfig (Some (Fixtures.cfg (Fixtures.ssp "Paused"))) = Some (Fixtures.cfg (Fixtures.ssp "Paused"))
  /\ PartnersConfig.AdServing (Fixtures.cfg (Fixtures.ssp "Paused")) = true
  /\ In (Fixtures.ssp "Paused") (PartnersConfig.SSPInventories (Fixtures.cfg (Fixtures.ssp "Paused")))
  /\ SSPInventory.Status (Fixtures.ssp "Paused") <> "Active"%string
  /\ SSPInventory.InventoryCode (Fixtures.ssp "Paused") <> EmptyString
  /\ exists s',
    Manager.GetSSPByInventoryCode (Some (Fixtures.cfg (Fixtures.ssp "Paused"))) "acc-1" = Some s'
    /\ SSPInventory.InventoryCode s' = "acc-1"%string
    /\ (NoDup (map SSPInventory.InventoryCode
                 (PartnersConfig.SSPInventories (Fixtures.cfg (Fixtures.ssp "Paused")))) -> s' = Fixtures.ssp "Paused")
    /\ exists rest r,
         Auction.Handle (fun _ => None) (fun _ _ _ => None) (fun l => l) (fun _ => []) true
           (Some (Fixtures.cfg (Fixtures.ssp "Paused"))) "acc-1" (Some [])
         = (Auction.SSPRequestInc (SSPInventory.PrometheusIdentifier s')
              (SSPInventory.TenantIdentifier s') (SSPInventory.SSPIdentifier s') :: rest, r)
         /\ Auction.Code r <> 401.
Proof.
  split; [reflexivity|]. split; [reflexivity|]. split; [left; reflexivity|].
  split; [discriminate|]. split; [discriminate|].
  exact (Handle_inactive_ssp_authenticates (fun _ => None) (fun _ _ _ => None) (fun l => l)
           (fun _ => []) true (Some (Fixtures.cfg (Fixtures.ssp "Paused")))
           (Fixtures.cfg (Fixtures.ssp "Paused")) (Fixtures.ssp "Paused") (Some [])
           eq_refl eq_refl (or_introl eq_refl) ltac:(discriminate) ltac:(discriminate)).
Defined.

End Handle_inactive_ssp_authenticates_example.

(** ** Event log: serialization round trip *)

Section WireRoundTrip.
Import Logging Generated.

Lemma put_varint_consume : forall f v rest,
  0 <= v < 128 ^ Z.of_nat (S f) ->
  ConsumeVarint (put_varint (S f) v ++ rest) = Some (v, rest).
Proof.
  induction f as [|f IH]; intros v rest Hv.
  - simpl in Hv. cbn [put_varint]. destruct (v <? 128) eqn:E.
    + simpl. rewrite E. reflexivity.
    + apply Z.ltb_ge in E. lia.
  - change (put_varint (S (S f)) v)
      with (if v <? 128 then [v] else (v mod 128 + 128) :: put_varint (S f) (v / 128)).
    destruct (v <? 128) eqn:E; [simpl; rewrite E; reflexivity|].
    apply Z.ltb_ge in E. rewrite <- app_comm_cons. cbn [ConsumeVarint].
    assert (Hm : 0 <= v mod 128 < 128) by (apply Z.mod_pos_bound; lia).
    destruct (Z.ltb_spec (v mod 128 + 128) 128) as [Hbad|_]; [lia|].
    rewrite IH.
    + f_equal. f_equal. pose proof (Z.div_mod v 128 ltac:(lia)). lia.
    + rewrite Nat2Z.inj_succ, Z.pow_succ_r in Hv by lia.
      split; [apply Z.div_pos; lia|]. apply Z.div_lt_upper_bound; lia.
Qed.

Lemma AppendVarint_consume : forall v rest,
  0 <= v -> ConsumeVarint (AppendVarint v ++ rest) = Some (v, rest).
Proof.
  intros v rest Hv. unfold AppendVarint. apply put_varint_consume. split; [exact Hv|].
  rewrite Nat2Z.inj_succ, Z2Nat.id by (apply Z.log2_nonneg).
  destruct (Z.eq_dec v 0) as [->|Hnz]; [simpl; lia|].
  pose proof (Z.log2_spec v ltac:(lia)) as [_ Hlt].
  eapply Z.lt_le_trans; [exact Hlt|].
  rewrite <- Z.add_1_r. apply Z.pow_le_mono_l. lia.
Qed.

Lemma put_varint_bytes : forall f v, 0 <= v -> Forall is_byte (put_varint f v).
Proof.
  induction f as [|f IH]; intros v Hv; simpl; [constructor|].
  destruct (Z.ltb_spec v 128).
  - constructor; [unfold is_byte; lia|constructor].
  - constructor.
    + pose proof (Z.mod_pos_bound v 128 ltac:(lia)). unfold is_byte; lia.
    + apply IH. apply Z.div_pos; lia.
Qed.

Lemma AppendVarint_cons : forall v, exists b bs, AppendVarint v = b :: bs.
Proof.
  intros v. unfold AppendVarint. cbn [put_varint].
  destruct (v <? 128); eauto.
Qed.

Lemma put_le_get : forall n v rest,
  0 <= v < 256 ^ Z.of_nat n -> get_le n (put_le n v ++ rest) = Some (v, rest).
Proof.
  induction n as [|n IH]; intros v rest Hv.
  - simpl in Hv. simpl. f_equal. f_equal. lia.
  - rewrite Nat2Z.inj_succ, Z.pow_succ_r in Hv by lia.
    cbn [put_le get_le app]. rewrite IH.
    + f_equal. f_equal. pose proof (Z.div_mod v 256 ltac:(lia)). lia.
    + split; [apply Z.div_pos; lia|]. apply Z.div_lt_upper_bound; lia.
Qed.

Lemma put_le_bytes : forall n v, Forall is_byte (put_le n v).
Proof.
  induction n as [|n IH]; intros v; simpl; constructor; auto.
  pose proof (Z.mod_pos_bound v 256 ltac:(lia)). unfold is_byte; lia.
Qed.

Lemma put_field_get : forall n w rest,
  field_ok (n, w) -> get_field (put_field n w ++ rest) = Some (n, w, rest).
Proof.
  intros n w rest [Hn Hw]. simpl fst in Hn. simpl snd in Hw.
  assert (Ht : 0 <= wire_type w < 8) by (destruct w; simpl; lia).
  unfold put_field, get_field. rewrite <- app_assoc, AppendVarint_consume by lia.
  replace ((n * 8 + wire_type w) / 8) with n
    by (rewrite Z.div_add_l, Z.div_small by lia; lia).
  replace ((n * 8 + wire_type w) mod 8) with (wire_type w)
    by (rewrite Z.add_comm, Z.mod_add, Z.mod_small by lia; reflexivity).
  destruct (Z.ltb_spec n 1) as [Hbad|_]; [lia|].
  destruct w as [v|v|b|v]; simpl wire_type; cbn [Z.eqb Pos.eqb].
  - rewrite AppendVarint_consume by exact Hw. reflexivity.
  - rewrite put_le_get by exact Hw. reflexivity.
  - rewrite <- app_assoc, AppendVarint_consume by lia.
    rewrite length_app, Nat2Z.inj_add, Nat2Z.id.
    destruct (Z.ltb_spec (Z.of_nat (List.length b) + Z.of_nat (List.length rest))
                (Z.of_nat (List.length b))) as [Hbad|_]; [lia|].
    rewrite firstn_app, Nat.sub_diag, firstn_O, app_nil_r, firstn_all.
    rewrite skipn_app, Nat.sub_diag, skipn_O, skipn_all. reflexivity.
  - rewrite put_le_get by exact Hw. reflexivity.
Qed.

Lemma put_field_bytes : forall n w, field_ok (n, w) -> Forall is_byte (put_field n w).
Proof.
  intros n w [Hn Hw]. simpl fst in Hn. simpl snd in Hw. unfold put_field.
  apply Forall_app. split.
  - apply put_varint_bytes. destruct w; simpl; lia.
  - destruct w as [v|v|b|v]; cbn beta iota.
    + apply put_varint_bytes. exact Hw.
    + apply put_le_bytes.
    + apply Forall_app. split; [apply put_varint_bytes; lia | exact Hw].
    + apply put_le_bytes.
Qed.

Lemma put_fields_bytes : forall fs, Forall field_ok fs -> Forall is_byte (put_fields fs).
Proof.
  induction fs as [|[n w] fs IH]; intros Hfs; simpl; [constructor|].
  inversion Hfs; subst. apply Forall_app. split; [apply put_field_bytes; assumption | auto].
Qed.

Lemma put_fields_length : forall fs, (List.length fs <= List.length (put_fields fs))%nat.
Proof.
  induction fs as [|[n w] fs IH]; simpl; [lia|].
  unfold put_field. destruct (AppendVarint_cons (n * 8 + wire_type w)) as (b & bs & ->).
  simpl. rewrite length_app. lia.
Qed.

Lemma get_put_fields : forall fs fuel,
  Forall field_ok fs -> (List.length fs <= fuel)%nat ->
  get_fields fuel (put_fields fs) = Some fs.
Proof.
  induction fs as [|[n w] fs IH]; intros fuel Hfs Hfuel; [destruct fuel; reflexivity|].
  inversion Hfs as [|? ? Hf Hr]; subst.
  destruct fuel as [|fuel]; [simpl in Hfuel; lia|].
  simpl put_fields. unfold put_field at 1.
  destruct (AppendVarint_cons (n * 8 + wire_type w)) as (b & bs & Hb).
  cbn [get_fields]. rewrite <- app_assoc, Hb. simpl app at 1.
  rewrite <- Hb, app_assoc. fold (put_field n w).
  rewrite put_field_get by exact Hf. rewrite IH by (auto; simpl in Hfuel; lia).
  reflexivity.
Qed.

Lemma ConsumeFields_put : forall fs,
  Forall field_ok fs -> ConsumeFields (put_fields fs) = Some fs.
Proof.
  intros fs Hfs. unfold ConsumeFields. apply get_put_fields; [exact Hfs|].
  apply put_fields_length.
Qed.



Lemma string_of_bytes_of_string : forall s, string_of_bytes (bytes_of_string s) = s.
Proof.
  induction s as [|c s IH]; [reflexivity|].
  unfold bytes_of_string, string_of_bytes in *. simpl.
  rewrite Nat2Z.id, ascii_nat_embedding, IH. reflexivity.
Qed.

Lemma bytes_of_string_bytes : forall s, Forall is_byte (bytes_of_string s).
Proof.
  induction s as [|c s IH]; simpl; constructor; [|exact IH].
  pose proof (nat_ascii_bounded c). unfold is_byte. lia.
Qed.

Lemma find_last_filter : forall p l, find_last p (filter p l) = find_last p l.
Proof.
  intros p l; induction l as [|f l IH]; [reflexivity|].
  simpl. destruct (p f) eqn:Hp; simpl; rewrite IH, ?Hp; [reflexivity|].
  destruct (find_last p l); reflexivity.
Qed.

Lemma filter_opt_varint : forall p n v,
  filter p (opt_varint n v) = if p (n, VVarint v) then opt_varint n v else [].
Proof.
  intros p n v. unfold opt_varint. destruct (v =? 0); simpl; destruct (p _); reflexivity.
Qed.

Lemma filter_opt_double : forall p n v,
  filter p (opt_double n v) = if p (n, VFixed64 v) then opt_double n v else [].
Proof.
  intros p n v. unfold opt_double. destruct (v =? 0); simpl; destruct (p _); reflexivity.
Qed.

Lemma filter_opt_bytes : forall p n b,
  filter p (opt_bytes n b) = if p (n, VBytes b) then opt_bytes n b else [].
Proof.
  intros p n b. unfold opt_bytes. destruct b; simpl; destruct (p _); reflexivity.
Qed.

Lemma opt_varint_ok : forall n v, 1 <= n -> 0 <= v -> Forall field_ok (opt_varint n v).
Proof.
  intros n v Hn Hv. unfold opt_varint. destruct (v =? 0); cbn iota.
  - constructor.
  - constructor; [split; assumption | constructor].
Qed.

Lemma opt_double_ok : forall n v, 1 <= n -> 0 <= v < 2 ^ 64 -> Forall field_ok (opt_double n v).
Proof.
  intros n v Hn Hv. unfold opt_double. destruct (v =? 0); cbn iota.
  - constructor.
  - constructor; [split; assumption | constructor].
Qed.

Lemma opt_bytes_ok : forall n b, 1 <= n -> Forall is_byte b -> Forall field_ok (opt_bytes n b).
Proof.
  intros n b Hn Hb. unfold opt_bytes. destruct b; cbn iota.
  - constructor.
  - constructor; [split; assumption | constructor].
Qed.

Lemma strings_ok_app : forall nums a b,
  strings_ok nums (a ++ b) = strings_ok nums a && strings_ok nums b.
Proof. intros. unfold strings_ok. apply forallb_app. Qed.

Lemma strings_ok_opt_varint : forall nums n v, strings_ok nums (opt_varint n v) = true.
Proof. intros. unfold opt_varint. destruct (v =? 0); reflexivity. Qed.

Lemma strings_ok_opt_double : forall nums n v, strings_ok nums (opt_double n v) = true.
Proof. intros. unfold opt_double. destruct (v =? 0); reflexivity. Qed.

Lemma strings_ok_opt_bytes : forall nums n b,
  strings_ok nums (opt_bytes n b) = if existsb (Z.eqb n) nums then utf8_valid b else true.
Proof.
  intros. unfold opt_bytes, strings_ok. destruct b as [|x b]; simpl.
  - destruct (existsb _ _); reflexivity.
  - rewrite andb_true_r. reflexivity.
Qed.

Lemma get_uint32_filter : forall fs n, get_uint32 fs n = get_uint32 (filter (has_num_type n 0) fs) n.
Proof. intros. unfold get_uint32. rewrite find_last_filter. reflexivity. Qed.

Lemma get_int64_filter : forall fs n, get_int64 fs n = get_int64 (filter (has_num_type n 0) fs) n.
Proof. intros. unfold get_int64. rewrite find_last_filter. reflexivity. Qed.

Lemma get_double_filter : forall fs n, get_double fs n = get_double (filter (has_num_type n 1) fs) n.
Proof. intros. unfold get_double. rewrite find_last_filter. reflexivity. Qed.

Lemma get_bytes_filter : forall fs n, get_bytes fs n = get_bytes (filter (has_num_type n 2) fs) n.
Proof. intros. unfold get_bytes. rewrite find_last_filter. reflexivity. Qed.

Lemma get_string_filter : forall fs n, get_string fs n = get_string (filter (has_num_type n 2) fs) n.
Proof. intros. unfold get_string. rewrite get_bytes_filter. reflexivity. Qed.

Lemma get_uint32_opt : forall n v, 0 <= v < 2 ^ 32 -> get_uint32 (opt_varint n v) n = v.
Proof.
  intros n v Hv. unfold get_uint32, opt_varint, has_num_type.
  destruct (Z.eqb_spec v 0) as [->|_]; [reflexivity|].
  cbn -[Z.eqb Z.pow Z.modulo]. rewrite !Z.eqb_refl. cbn -[Z.pow Z.modulo]. apply Z.mod_small. exact Hv.
Qed.

Lemma get_int64_opt : forall n t, - 2 ^ 63 <= t < 2 ^ 63 ->
  get_int64 (opt_varint n (t mod 2 ^ 64)) n = t.
Proof.
  intros n t Ht. unfold get_int64, opt_varint, has_num_type.
  assert (Hm : 0 <= t mod 2 ^ 64 < 2 ^ 64) by (apply Z.mod_pos_bound; lia).
  destruct (0 <=? t) eqn:Hs; [apply Z.leb_le in Hs | apply Z.leb_gt in Hs].
  - rewrite (Z.mod_small t) by lia.
    destruct (Z.eqb_spec t 0) as [->|_]; [reflexivity|].
    cbn -[Z.eqb Z.pow Z.modulo]. rewrite !Z.eqb_refl. cbn -[Z.pow Z.modulo]. rewrite Z.mod_small by lia.
    destruct (Z.leb_spec (2 ^ 63) t); lia.
  - assert (Hneg : t mod 2 ^ 64 = t + 2 ^ 64).
    { rewrite <- (Z.mod_add t 1 (2 ^ 64)) by lia. rewrite Z.mul_1_l. apply Z.mod_small. lia. }
    rewrite Hneg. destruct (Z.eqb_spec (t + 2 ^ 64) 0) as [He|_]; [lia|].
    cbn -[Z.eqb Z.pow Z.modulo]. rewrite !Z.eqb_refl. cbn -[Z.pow Z.modulo]. rewrite Z.mod_small by lia.
    destruct (Z.leb_spec (2 ^ 63) (t + 2 ^ 64)); lia.
Qed.

Lemma get_double_opt : forall n v, get_double (opt_double n v) n = v.
Proof.
  intros n v. unfold get_double, opt_double, has_num_type.
  destruct (Z.eqb_spec v 0) as [->|_]; [reflexivity|].
  cbn -[Z.eqb]. rewrite !Z.eqb_refl. reflexivity.
Qed.

Lemma get_bytes_opt : forall n b, get_bytes (opt_bytes n b) n = b.
Proof.
  intros n b. unfold get_bytes, opt_bytes, has_num_type. destruct b as [|x b]; [reflexivity|].
  cbn -[Z.eqb]. rewrite !Z.eqb_refl. reflexivity.
Qed.

Lemma get_string_opt : forall n s, get_string (opt_bytes n (bytes_of_string s)) n = s.
Proof.
  intros n s. unfold get_string. rewrite get_bytes_opt. apply string_of_bytes_of_string.
Qed.

Ltac filt :=
  rewrite ?filter_app, ?filter_opt_varint, ?filter_opt_double, ?filter_opt_bytes;
  simpl; rewrite ?app_nil_r.

Lemma app_fields_ok : forall a, Forall field_ok (app_fields a).
Proof.
  intros a. unfold app_fields, opt_string.
  repeat (apply Forall_app; split); apply opt_bytes_ok; try lia; apply bytes_of_string_bytes.
Qed.

Lemma web_fields_ok : forall w, Forall field_ok (web_fields w).
Proof.
  intros w. unfold web_fields, opt_string.
  apply Forall_app; split; apply opt_bytes_ok; try lia; apply bytes_of_string_bytes.
Qed.

Lemma decode_app_put : forall a,
  forallb (fun s => utf8_valid (bytes_of_string s)) [App.Id a; App.Name a; App.Bundle a; App.Domain a] = true ->
  decode_app (put_fields (app_fields a)) = Some a.
Proof.
  intros a Hv. unfold decode_app. rewrite ConsumeFields_put by apply app_fields_ok.
  destruct a as [i nm bd dm]. simpl in Hv. rewrite !andb_true_iff in Hv.
  unfold app_fields, opt_string. simpl.
  rewrite !strings_ok_app, !strings_ok_opt_bytes. simpl.
  destruct Hv as (H1 & H2 & H3 & H4 & _). rewrite H1, H2, H3, H4. simpl.
  rewrite (get_string_filter _ 1), (get_string_filter _ 2), (get_string_filter _ 3),
    (get_string_filter _ 4).
  filt. rewrite !get_string_opt. reflexivity.
Qed.

Lemma decode_web_put : forall w,
  forallb (fun s => utf8_valid (bytes_of_string s)) [Web.Domain w; Web.Page w] = true ->
  decode_web (put_fields (web_fields w)) = Some w.
Proof.
  intros w Hv. unfold decode_web. rewrite ConsumeFields_put by apply web_fields_ok.
  destruct w as [dm pg]. simpl in Hv. rewrite !andb_true_iff in Hv.
  unfold web_fields, opt_string. simpl.
  rewrite !strings_ok_app, !strings_ok_opt_bytes. simpl.
  destruct Hv as (H1 & H2 & _). rewrite H1, H2. simpl.
  rewrite (get_string_filter _ 1), (get_string_filter _ 2).
  filt. rewrite !get_string_opt. reflexivity.
Qed.

Lemma source_fields_ok : forall s, Forall field_ok (source_fields s).
Proof.
  intros [[a|w]|]; simpl; [| |constructor];
    (constructor; [|constructor]); (split; [simpl; lia|]); simpl; apply put_fields_bytes;
    [apply app_fields_ok | apply web_fields_ok].
Qed.

Lemma event_fields_ok : forall e, wf_event e -> Forall field_ok (event_fields e).
Proof.
  intros e (H1 & H2 & H3 & H5 & H6 & H7 & H8 & H9 & H10 & H14).
  unfold event_fields, opt_string.
  repeat (apply Forall_app; split);
    first [ apply opt_varint_ok; [lia|]; try lia; apply Z.mod_pos_bound; lia
          | apply opt_double_ok; lia
          | apply opt_bytes_ok; [lia|]; first [assumption | apply bytes_of_string_bytes]
          | apply source_fields_ok ].
Qed.

(** Decoding the encoding of a well-formed event gives the event back. *)
Lemma Unmarshal_Marshal : forall e data,
  wf_event e -> Marshal e = Some data -> Unmarshal data = Some e.
Proof.
  intros e data Hwf Hm. unfold Marshal in Hm.
  destruct (event_strings_valid e) eqn:Hv; [|discriminate]. injection Hm as <-.
  unfold Unmarshal. rewrite ConsumeFields_put by (apply event_fields_ok; exact Hwf).
  destruct e as [ten sp si aid dp di dpr bpr rb rr src host ts].
  destruct Hwf as (H1 & H2 & H3 & H5 & H6 & H7 & H8 & H9 & H10 & H14). simpl in *.
  unfold event_strings_valid in Hv. simpl in Hv. rewrite !andb_true_iff in Hv.
  destruct Hv as ((Ha & Hh) & Hsrc).
  unfold event_fields, opt_string. simpl.
  rewrite !strings_ok_app, !strings_ok_opt_varint, !strings_ok_opt_double,
    !strings_ok_opt_bytes. simpl. rewrite Ha, Hh.
  replace (strings_ok [4; 13] (source_fields src)) with true
    by (destruct src as [[a|w]|]; reflexivity).
  simpl.
  unfold decode_source. rewrite <- find_last_filter.
  rewrite (get_uint32_filter _ 1), (get_uint32_filter _ 2), (get_uint32_filter _ 3),
    (get_string_filter _ 4), (get_uint32_filter _ 5), (get_uint32_filter _ 6),
    (get_double_filter _ 7), (get_double_filter _ 8), (get_bytes_filter _ 9),
    (get_bytes_filter _ 10), (get_string_filter _ 13), (get_int64_filter _ 14).
  destruct src as [[a|w]|]; filt.
  - rewrite decode_app_put by exact Hsrc. simpl.
    rewrite !get_uint32_opt, !get_double_opt, !get_bytes_opt, !get_string_opt, get_int64_opt
      by assumption.
    reflexivity.
  - rewrite decode_web_put by exact Hsrc. simpl.
    rewrite !get_uint32_opt, !get_double_opt, !get_bytes_opt, !get_string_opt, get_int64_opt
      by assumption.
    reflexivity.
  - rewrite !get_uint32_opt, !get_double_opt, !get_bytes_opt, !get_string_opt, get_int64_opt
      by assumption.
    reflexivity.
Qed.

Lemma hexdigit_from : forall n, 0 <= n < 16 -> fromHexChar (hexdigit n) = Some n.
Proof.
  intros n Hn. rewrite <- (Z2Nat.id n) by lia.
  assert (Hk : (Z.to_nat n < 16)%nat) by lia.
  generalize (Z.to_nat n) Hk. intros k Hk'.
  do 16 (destruct k as [|k]; [reflexivity|]). lia.
Qed.

Lemma DecodeString_EncodeToString : forall l,
  Forall is_byte l -> DecodeString (EncodeToString l) = Some l.
Proof.
  induction l as [|b l IH]; intros Hl; [reflexivity|].
  inversion Hl as [|? ? Hb Hr]; subst. unfold is_byte in Hb.
  simpl. rewrite !hexdigit_from, IH by (auto; first [split; [apply Z.div_pos; lia | apply Z.div_lt_upper_bound; lia] | apply Z.mod_pos_bound; lia]).
  f_equal. f_equal. pose proof (Z.div_mod b 16 ltac:(lia)). lia.
Qed.

Lemma strip_newline_app : forall s, strip_newline (s ++ newline) = Some s.
Proof.
  induction s as [|c s IH]; [reflexivity|].
  change (String c s ++ newline)%string with (String c (s ++ newline)).
  replace (strip_newline (String c (s ++ newline)))
    with (option_map (String c) (strip_newline (s ++ newline))) by (destruct s; reflexivity).
  rewrite IH. reflexivity.
Qed.

(** Reading back a line written by [writeEvent]. *)
Lemma read_line_written : forall e data,
  wf_event e -> Marshal e = Some data ->
  read_line (EncodeToString data ++ newline) = Some e.
Proof.
  intros e data Hwf Hm. unfold read_line. rewrite strip_newline_app.
  assert (Hb : Forall is_byte data).
  { unfold Marshal in Hm. destruct (event_strings_valid e); [|discriminate].
    injection Hm as <-. apply put_fields_bytes, event_fields_ok, Hwf. }
  rewrite DecodeString_EncodeToString by exact Hb.
  apply Unmarshal_Marshal; assumption.
Qed.

End WireRoundTrip.

(** C8 (counterexample): an event the logger accepts but never writes.  Its
    auction id is the single byte 0xFF, not valid UTF-8, so [proto.Marshal]
    fails for this proto3 [string] field and [writeEvent] writes nothing. *)
Lemma Log_invalid_utf8_not_written :
  exists l1 l2,
    Logging.Log false 0 Fixtures.bad_event Fixtures.logger = Logging.Ok l1
    /\ Logging.buf (Logging.logChan l1)
       = [Logging.stamp Fixtures.logger 0 Fixtures.bad_event]
    /\ Logging.start_step l1 = Some l2
    /\ Logging.buf (Logging.logChan l2) = []
    /\ Logging.writes l2 = []
    /\ Logging.Marshal (Logging.stamp Fixtures.logger 0 Fixtures.bad_event) = None.
Proof.
  do 2 eexists. split; [reflexivity|]. split; [reflexivity|].
  split; [reflexivity|]. split; [reflexivity|]. split; vm_compute; reflexivity.
Qed.

(** C8 (amended): take an event at the head of the logger's queue (as [Log]
    queued it, with its hostname and timestamp already stamped).  If its
    fields hold values of their Go types and its [string] fields are valid
    UTF-8, one consumer step removes it and writes exactly one line, the hex
    encoding of its serialization followed by a newline; reading that line
    back (strip the newline, decode the hex, deserialize) gives the event
    itself, hostname and timestamp included.  If one of its [string] fields
    (auction id, hostname, app or web fields) is not valid UTF-8,
    [proto.Marshal] fails and the consumer step removes it and writes
    nothing. *)
Theorem start_step_writes_event : forall (l : Logging.BidLogger) e r,
  Logging.buf (Logging.logChan l) = e :: r ->
  (Logging.wf_event e ->
   Logging.event_strings_valid e = true ->
   exists data l',
     Logging.Marshal e = Some data
     /\ Logging.start_step l = Some l'
     /\ Logging.buf (Logging.logChan l') = r
     /\ Logging.writes l' = Logging.writes l ++ [(Logging.EncodeToString data ++ Logging.newline)%string]
     /\ Logging.read_line (Logging.EncodeToString data ++ Logging.newline) = Some e)
  /\ (Logging.event_strings_valid e = false ->
      Logging.Marshal e = None
      /\ exists l',
        Logging.start_step l = Some l'
        /\ Logging.buf (Logging.logChan l') = r
        /\ Logging.writes l' = Logging.writes l).
Proof.
  intros l e r Hbuf. split.
  - intros Hwf Hv.
    assert (Hm : Logging.Marshal e = Some (Logging.put_fields (Logging.event_fields e)))
      by (unfold Logging.Marshal; rewrite Hv; reflexivity).
    exists (Logging.put_fields (Logging.event_fields e)).
    eexists. split; [exact Hm|]. split.
    + unfold Logging.start_step. rewrite Hbuf. reflexivity.
    + unfold Logging.writeEvent. rewrite Hm. simpl. split; [reflexivity|]. split; [reflexivity|].
      apply read_line_written; assumption.
  - intros Hv.
    assert (Hm : Logging.Marshal e = None)
      by (unfold Logging.Marshal; rewrite Hv; reflexivity).
    split; [exact Hm|]. eexists. split.
    + unfold Logging.start_step. rewrite Hbuf. reflexivity.
    + unfold Logging.writeEvent. rewrite Hm. split; reflexivity.
Qed.

Lemma start_step_writes_event_witness :
  let l := Logging.mkBidLogger (Logging.mkChan [Fixtures.good_event; Fixtures.bad_event] false)
             10 [] true "host-1" in
  let l1 := Logging.mkBidLogger (Logging.mkChan [Fixtures.bad_event] false)
              10 [] true "host-1" in
  (Logging.buf (Logging.logChan l) = [Fixtures.good_event; Fixtures.bad_event]
   /\ Logging.wf_event Fixtures.good_event
   /\ Logging.event_strings_valid Fixtures.good_event = true
   /\ exists data l',
     Logging.Marshal Fixtures.good_event = Some data
     /\ Logging.start_step l = Some l'
     /\ Logging.buf (Logging.logChan l') = [Fixtures.bad_event]
     /\ Logging.writes l' = Logging.writes l ++ [(Logging.EncodeToString data ++ Logging.newline)%string]
     /\ Logging.read_line (Logging.EncodeToString data ++ Logging.newline) = Some Fixtures.good_event)
  /\ (Logging.buf (Logging.logChan l1) = [Fixtures.bad_event]
      /\ Logging.event_strings_valid Fixtures.bad_event = false
      /\ Logging.Marshal Fixtures.bad_event = None
      /\ exists l',
        Logging.start_step l1 = Some l'
        /\ Logging.buf (Logging.logChan l') = []
        /\ Logging.writes l' = Logging.writes l1).
Proof.
  intros l l1.
  assert (Hwf : Logging.wf_event Fixtures.good_event).
  { unfold Logging.wf_event, Logging.is_byte. simpl.
    repeat split; try lia; repeat constructor; lia. }
  assert (Hbad : Logging.event_strings_valid Fixtures.bad_event = false)
    by (vm_compute; reflexivity).
  split.
  - split; [reflexivity|]. split; [exact Hwf|]. split; [vm_compute; reflexivity|].
    exact (proj1 (start_step_writes_event l Fixtures.good_event [Fixtures.bad_event] eq_refl) Hwf
             ltac:(vm_compute; reflexivity)).
  - split; [reflexivity|]. split; [exact Hbad|].
    exact (proj2 (start_step_writes_event l1 Fixtures.bad_event [] eq_refl) Hbad).
Defined.

(* ================================================================== *)
(** * Further properties of the code *)

(** ** Targeting *)

Lemma MatchTargeting_rules {tables : UnicodeTables} : forall req dsp,
  Targeting.MatchTargeting req dsp = true ->
  Targeting.source_rule req dsp = true /\ Targeting.country_rule req dsp = true
  /\ Targeting.bundle_rule req dsp = true /\ Targeting.format_rule req dsp = true.
Proof.
  intros req dsp H. unfold Targeting.MatchTargeting in H.
  destruct (Targeting.source_rule req dsp), (Targeting.country_rule req dsp),
    (Targeting.bundle_rule req dsp), (Targeting.format_rule req dsp); simpl in H;
    try discriminate; auto.
Qed.

Ltac pos_len H :=
  match type of H with
  | context [0 <? Z.of_nat (S ?n)] =>
      replace (0 <? Z.of_nat (S n)) with true in H by (symmetry; apply Z.ltb_lt; lia)
  end; cbn iota in H.

(** [MatchTargeting] accepts a DSP only if its [Source] list is empty or
    names the request's kind, compared case-insensitively: ["app"] when the
    request has an [App], ["web"] otherwise. *)
Theorem MatchTargeting_source {tables : UnicodeTables} : forall req dsp,
  Targeting.MatchTargeting req dsp = true ->
  DSPInventory.Source dsp = []
  \/ exists s, In s (DSPInventory.Source dsp)
               /\ ToLower s = match BidRequest.App req with
                              | Some _ => "app"%string
                              | None => "web"%string
                              end.
Proof.
  intros req dsp H. apply MatchTargeting_rules in H. destruct H as [H _].
  unfold Targeting.source_rule in H.
  destruct (DSPInventory.Source dsp) as [|s0 ss] eqn:Hs; [left; reflexivity|right].
  cbv zeta in H. simpl List.length in H.
  destruct (existsb _ (s0 :: ss)) eqn:He; [|discriminate].
  apply existsb_exists in He. destruct He as [s [Hin Hs']]. exists s. split; [exact Hin|].
  destruct (BidRequest.App req); simpl in Hs'.
  - apply String.eqb_eq. destruct (String.eqb (ToLower s) "app"); [reflexivity|discriminate].
  - apply String.eqb_eq. destruct (String.eqb (ToLower s) "web"); [reflexivity|discriminate].
Qed.

(** With a request country (upper-cased) that is not empty, [MatchTargeting]
    accepts a DSP only if its [Country] list is empty or has an entry equal
    to the country or to ["ANY"] after upper-casing; a request without a
    device or without a geo object is never filtered by country. *)
Theorem MatchTargeting_country_whitelist {tables : UnicodeTables} : forall req dsp,
  (Targeting.MatchTargeting req dsp = true ->
   Targeting.country_of req <> EmptyString ->
   DSPInventory.Country dsp = []
   \/ exists wc, In wc (DSPInventory.Country dsp)
                 /\ (ToUpper wc = Targeting.country_of req \/ ToUpper wc = "ANY"%string))
  /\ ((BidRequest.Device req = None
       \/ exists d, BidRequest.Device req = Some d /\ Device.Geo d = None) ->
      Targeting.country_rule req dsp = true).
Proof.
  intros req dsp. split.
  - intros H Hc. apply MatchTargeting_rules in H. destruct H as [_ [H _]].
    unfold Targeting.country_rule in H.
    apply String.eqb_neq in Hc. rewrite Hc in H. simpl in H.
    destruct (Targeting.country_blacklisted _ dsp); [discriminate|].
    destruct (DSPInventory.Country dsp) as [|c0 cs] eqn:Hcs; [left; reflexivity|right].
    simpl List.length in H. pos_len H.
    unfold Targeting.country_whitelisted in H. rewrite Hcs in H.
    apply existsb_exists in H. destruct H as [wc [Hin Hw]]. exists wc. split; [exact Hin|].
    apply orb_true_iff in Hw. destruct Hw as [Hw|Hw]; apply String.eqb_eq in Hw; auto.
  - intros Hd. unfold Targeting.country_rule, Targeting.country_of.
    destruct Hd as [-> | [d [-> Hg]]]; [reflexivity|]. rewrite Hg. reflexivity.
Qed.

(** For an app request with a non-empty bundle id, [MatchTargeting] accepts a
    DSP only if the bundle id (compared exactly, case-sensitively) is not in
    its [BundleIDsBlackList] and its [BundleIDs] list is empty or contains
    the bundle id. *)
Theorem MatchTargeting_bundle {tables : UnicodeTables} : forall req dsp a,
  Targeting.MatchTargeting req dsp = true ->
  BidRequest.App req = Some a ->
  App.Bundle a <> EmptyString ->
  ~ In (App.Bundle a) (DSPInventory.BundleIDsBlackList dsp)
  /\ (DSPInventory.BundleIDs dsp = [] \/ In (App.Bundle a) (DSPInventory.BundleIDs dsp)).
Proof.
  intros req dsp a H Ha Hb. apply MatchTargeting_rules in H. destruct H as [_ [_ [H _]]].
  unfold Targeting.bundle_rule in H. rewrite Ha in H.
  apply String.eqb_neq in Hb. rewrite Hb in H. simpl in H.
  destruct (existsb (fun bb => String.eqb bb (App.Bundle a)) (DSPInventory.BundleIDsBlackList dsp))
    eqn:Hbl; [discriminate|].
  split.
  - intros Hin. assert (Hx : existsb (fun bb => String.eqb bb (App.Bundle a))
                               (DSPInventory.BundleIDsBlackList dsp) = true).
    { apply existsb_exists. exists (App.Bundle a). split; [exact Hin|apply String.eqb_refl]. }
    congruence.
  - destruct (DSPInventory.BundleIDs dsp) as [|b0 bs] eqn:Hbs; [left; reflexivity|right].
    simpl List.length in H. pos_len H.
    apply existsb_exists in H. destruct H as [wb [Hin Hw]]. apply String.eqb_eq in Hw.
    subst wb. exact Hin.
Qed.

(** A DSP with a non-empty [AdFormats] list is accepted only if some
    impression of the request has a format the list names (compared
    case-insensitively): a banner for ["banner"], a video for ["video"], an
    audio object for ["audio"], a native object for ["native"].  So a
    request without impressions never matches such a DSP. *)
Theorem MatchTargeting_format {tables : UnicodeTables} : forall req dsp,
  Targeting.MatchTargeting req dsp = true ->
  DSPInventory.AdFormats dsp <> [] ->
  exists imp df, In imp (BidRequest.Imp req) /\ In df (DSPInventory.AdFormats dsp)
    /\ ((Imp.Banner imp = true /\ ToLower df = "banner"%string)
        \/ (Imp.Video imp = true /\ ToLower df = "video"%string)
        \/ (Imp.Audio imp = true /\ ToLower df = "audio"%string)
        \/ (Imp.Native imp = true /\ ToLower df = "native"%string)).
Proof.
  intros req dsp H Hne. apply MatchTargeting_rules in H. destruct H as [_ [_ [_ H]]].
  unfold Targeting.format_rule in H.
  destruct (DSPInventory.AdFormats dsp) as [|f0 fs] eqn:Hf; [congruence|].
  simpl List.length in H. pos_len H.
  apply existsb_exists in H. destruct H as [imp [Himp H]].
  apply existsb_exists in H. destruct H as [df [Hdf H]].
  exists imp, df. split; [exact Himp|]. split; [exact Hdf|].
  unfold Targeting.format_hit in H.
  repeat rewrite orb_true_iff in H. repeat rewrite andb_true_iff in H.
  destruct H as [[[[H1 H2]|[H1 H2]]|[H1 H2]]|[H1 H2]]; apply String.eqb_eq in H2; tauto.
Qed.

(** [MatchTargeting] reads only six lists of the DSP record: [Source],
    [Country], [CountryBlackList], [BundleIDs], [BundleIDsBlackList] and
    [AdFormats].  Two DSP records that agree on these get the same answer
    for every request, whatever their IAB categories, bid floors, SSP and
    publisher lists, status or tenant. *)
Theorem MatchTargeting_reads_six_lists {tables : UnicodeTables} : forall req d1 d2,
  DSPInventory.Source d1 = DSPInventory.Source d2 ->
  DSPInventory.Country d1 = DSPInventory.Country d2 ->
  DSPInventory.CountryBlackList d1 = DSPInventory.CountryBlackList d2 ->
  DSPInventory.BundleIDs d1 = DSPInventory.BundleIDs d2 ->
  DSPInventory.BundleIDsBlackList d1 = DSPInventory.BundleIDsBlackList d2 ->
  DSPInventory.AdFormats d1 = DSPInventory.AdFormats d2 ->
  Targeting.MatchTargeting req d1 = Targeting.MatchTargeting req d2.
Proof.
  intros req d1 d2 H1 H2 H3 H4 H5 H6.
  unfold Targeting.MatchTargeting, Targeting.source_rule, Targeting.country_rule,
    Targeting.country_blacklisted, Targeting.country_whitelisted, Targeting.bundle_rule,
    Targeting.format_rule.
  rewrite H1, H2, H3, H4, H5, H6. reflexivity.
Qed.

(** A DSP with no targeting lists (empty [Source], [Country],
    [CountryBlackList], [BundleIDs], [BundleIDsBlackList] and [AdFormats])
    matches every request. *)
Theorem MatchTargeting_untargeted {tables : UnicodeTables} : forall req dsp,
  DSPInventory.Source dsp = [] ->
  DSPInventory.Country dsp = [] ->
  DSPInventory.CountryBlackList dsp = [] ->
  DSPInventory.BundleIDs dsp = [] ->
  DSPInventory.BundleIDsBlackList dsp = [] ->
  DSPInventory.AdFormats dsp = [] ->
  Targeting.MatchTargeting req dsp = true.
Proof.
  intros req dsp H1 H2 H3 H4 H5 H6.
  unfold Targeting.MatchTargeting, Targeting.source_rule, Targeting.country_rule,
    Targeting.country_blacklisted, Targeting.country_whitelisted, Targeting.bundle_rule,
    Targeting.format_rule.
  rewrite H1, H2, H3, H4, H5, H6. simpl.
  destruct (String.eqb (Targeting.country_of req) EmptyString); simpl;
    (destruct (BidRequest.App req) as [a|]; [|reflexivity]);
    destruct (String.eqb (App.Bundle a) EmptyString); reflexivity.
Qed.

(** For a limit [N >= 1], [ShortlistDSPs] returns the first [N] candidates
    that pass [MatchTargeting], in candidate order: at most [N] DSPs, each a
    candidate accepted by the targeting. *)
Theorem ShortlistDSPs_first_matching {tables : UnicodeTables} : forall req cands N,
  1 <= N ->
  Targeting.ShortlistDSPs req cands N =
    firstn (Z.to_nat N) (filter (Targeting.MatchTargeting req) cands)
  /\ (List.length (Targeting.ShortlistDSPs req cands N) <= Z.to_nat N)%nat
  /\ (forall d, In d (Targeting.ShortlistDSPs req cands N) ->
        In d cands /\ Targeting.MatchTargeting req d = true).
Proof.
  intros req cands N HN. destruct (ShortlistDSPs_prefix req cands N HN) as [Heq Hlen].
  split; [exact Heq|]. split; [exact Hlen|].
  intros d Hd. rewrite Heq in Hd. apply filter_In.
  rewrite <- (firstn_skipn (Z.to_nat N) (filter (Targeting.MatchTargeting req) cands)).
  apply in_or_app. left. exact Hd.
Qed.

(** ** Partner registry *)

Lemma find_ssp_split : forall code l s,
  Manager.find_ssp code l = Some s <->
  exists pre post, l = pre ++ s :: post /\ SSPInventory.InventoryCode s = code
                   /\ Forall (fun x => SSPInventory.InventoryCode x <> code) pre.
Proof.
  intros code l s; induction l as [|x l IH]; simpl.
  - split; [discriminate|]. intros (pre & post & Hl & _). destruct pre; discriminate.
  - destruct (String.eqb_spec (SSPInventory.InventoryCode x) code) as [Hx|Hx].
    + split.
      * intros H. injection H as <-. exists [], l. auto.
      * intros (pre & post & Hl & Hc & Hpre). destruct pre as [|y pre].
        -- injection Hl as -> _. reflexivity.
        -- injection Hl as -> _. inversion Hpre. contradiction.
    + rewrite IH. split.
      * intros (pre & post & Hl & Hc & Hpre). exists (x :: pre), post.
        split; [rewrite Hl; reflexivity|]. split; [exact Hc|]. constructor; assumption.
      * intros (pre & post & Hl & Hc & Hpre). destruct pre as [|y pre].
        -- injection Hl as -> _. contradiction.
        -- injection Hl as -> Hl. inversion Hpre; subst. exists pre, post. auto.
Qed.

Lemma find_ssp_none : forall code l,
  Manager.find_ssp code l = None <-> Forall (fun x => SSPInventory.InventoryCode x <> code) l.
Proof.
  intros code l; induction l as [|x l IH]; simpl.
  - split; [constructor|reflexivity].
  - destruct (String.eqb_spec (SSPInventory.InventoryCode x) code) as [Hx|Hx].
    + split; [discriminate|]. intros H. inversion H. contradiction.
    + rewrite IH. split; [constructor; assumption|]. intros H. inversion H. assumption.
Qed.

(** [GetSSPByInventoryCode] returns the first SSP record of the loaded
    config whose inventory code equals the given code exactly; it returns
    nothing when no config is loaded or no record carries the code. *)
Theorem GetSSPByInventoryCode_first : forall m code,
  (forall s, Manager.GetSSPByInventoryCode m code = Some s <->
     exists cfg pre post, Manager.GetConfig m = Some cfg
       /\ PartnersConfig.SSPInventories cfg = pre ++ s :: post
       /\ SSPInventory.InventoryCode s = code
       /\ Forall (fun x => SSPInventory.InventoryCode x <> code) pre)
  /\ (Manager.GetSSPByInventoryCode m code = None <->
      Manager.GetConfig m = None
      \/ exists cfg, Manager.GetConfig m = Some cfg
           /\ Forall (fun x => SSPInventory.InventoryCode x <> code)
                     (PartnersConfig.SSPInventories cfg)).
Proof.
  intros m code. unfold Manager.GetSSPByInventoryCode. split.
  - intros s. destruct (Manager.GetConfig m) as [cfg|].
    + rewrite find_ssp_split. split.
      * intros (pre & post & H). exists cfg, pre, post. auto.
      * intros (c & pre & post & Hc & H). injection Hc as <-. exists pre, post. exact H.
    + split; [discriminate|]. intros (c & pre & post & Hc & _). discriminate.
  - destruct (Manager.GetConfig m) as [cfg|].
    + rewrite find_ssp_none. split.
      * intros H. right. exists cfg. auto.
      * intros [H|(c & Hc & H)]; [discriminate|]. injection Hc as <-. exact H.
    + split; [left; reflexivity|reflexivity].
Qed.

(** The reload loop of [StartReloading] logs one result per tick: [nil]
    when the file was read and decoded, the read or decode error otherwise.
    Failed reloads never change the config: afterwards the manager holds the
    config of the last tick that loaded successfully, or the config it had
    before when no tick did. *)
Theorem StartReloading_last_success :
  forall (un : list Z -> option PartnersConfig.t) path ticks (m : Manager.t),
  let '(errs, m') := Manager.StartReloading un path ticks m in
  errs = map (fun rd => match rd with
                        | None => Some "failed to read partners file"%string
                        | Some data => match un data with
                                       | None => Some "failed to unmarshal partners config"%string
                                       | Some _ => None
                                       end
                        end) ticks
  /\ (((forall rd, In rd ticks -> match rd with Some data => un data = None | None => True end)
       /\ m' = m)
      \/ exists pre data cfg post,
           ticks = pre ++ Some data :: post /\ un data = Some cfg
           /\ (forall rd, In rd post -> match rd with Some d => un d = None | None => True end)
           /\ m' = Some cfg).
Proof.
  intros un path ticks. induction ticks as [|rd rest IH]; intros m; simpl.
  - split; [reflexivity|]. left. split; [intros _ []|reflexivity].
  - destruct (Manager.Load (fun _ => rd) un path m) as [err m1] eqn:Hl.
    specialize (IH m1). destruct (Manager.StartReloading un path rest m1) as [errs m2].
    destruct IH as [Herrs IH]. unfold Manager.Load in Hl.
    split.
    { rewrite Herrs. destruct rd as [data|]; [destruct (un data)|]; injection Hl as <- _;
      reflexivity. }
    destruct IH as [[Hall ->] | (pre & data & cfg & post & Ht & Hu & Hpost & ->)].
    + destruct rd as [data|]; [destruct (un data) as [cfg|] eqn:Hu|].
      * injection Hl as _ <-. right. exists [], data, cfg, rest. auto.
      * injection Hl as _ <-. left. split; [|reflexivity].
        intros r [<-|Hr]; [exact Hu|exact (Hall r Hr)].
      * injection Hl as _ <-. left. split; [|reflexivity].
        intros r [<-|Hr]; [exact I|exact (Hall r Hr)].
    + right. exists (rd :: pre), data, cfg, post. rewrite Ht. auto.
Qed.

(** ** The auction handler: DSP calls and metrics *)

Lemma count_app : forall c a b,
  Metrics.count c (a ++ b) = (Metrics.count c a + Metrics.count c b)%nat.
Proof. intros c a b. unfold Metrics.count. now rewrite filter_app, length_app. Qed.

Lemma dsp_calls_app : forall a b,
  Metrics.dsp_calls (a ++ b) = Metrics.dsp_calls a ++ Metrics.dsp_calls b.
Proof. intros a b. unfold Metrics.dsp_calls. apply flat_map_app. Qed.

(** Each task of the fan-out calls its DSP once with the request body and
    makes one request, one latency and one response update for it. *)
Lemma fan_out_metrics : forall CallDSP tmax body dsps,
  let fx := fst (Auction.fan_out CallDSP tmax body dsps) in
  Metrics.dsp_calls fx = map (fun d => (d, body)) dsps
  /\ Metrics.count Metrics.DSPRequestCounter fx = List.length dsps
  /\ Metrics.count Metrics.DSPResponseCounter fx = List.length dsps
  /\ Metrics.count Metrics.DSPLatencyHistogram fx = List.length dsps
  /\ Metrics.count Metrics.SSPRequestCounter fx = O
  /\ Metrics.count Metrics.SSPResponseCounter fx = O
  /\ Metrics.count Metrics.AuctionCounter fx = O.
Proof.
  intros call tmax body dsps; induction dsps as [|d ds IH]; [repeat split|].
  cbn zeta in IH |- *. cbn [Auction.fan_out].
  destruct (Auction.dsp_task call tmax body d) as [fx r] eqn:Hd.
  destruct (Auction.fan_out call tmax body ds) as [fxs rs]. cbn [fst] in IH |- *.
  destruct IH as (H1 & H2 & H3 & H4 & H5 & H6 & H7).
  unfold Auction.dsp_task in Hd.
  destruct (call tmax d body) as [resp|];
    [destruct (Auction.hasBid resp)|]; injection Hd as <- _;
    rewrite dsp_calls_app, !count_app, H1, H2, H3, H4, H5, H6, H7;
    repeat split; reflexivity.
Qed.

Ltac metrics_leaf :=
  cbv beta iota; cbn [Auction.Code];
  unfold Metrics.count, Metrics.dsp_calls; simpl;
  repeat split; try reflexivity; try lia;
  try (intros H; simpl in H; intuition congruence).

(** Whatever the request, the handler updates [rtb_ssp_requests_total] at
    most once, and [rtb_ssp_responses_total] exactly as often except on a
    400 answer, where it is not updated; it counts at most one auction; it
    makes one DSP request update, one response update and one latency
    observation per DSP it calls; and it answers 200 exactly when it counts
    an [ok] auction. *)
Theorem Handle_metrics_balance {tables : UnicodeTables} :
  forall UnmarshalReq CallDSP Arrival MarshalResp BidLoggerPresent m code body,
  let '(fx, r) := Auction.Handle UnmarshalReq CallDSP Arrival MarshalResp BidLoggerPresent
                    m code body in
  (Metrics.count Metrics.SSPRequestCounter fx <= 1)%nat
  /\ Metrics.count Metrics.SSPResponseCounter fx
     = (if Auction.Code r =? 400 then O else Metrics.count Metrics.SSPRequestCounter fx)
  /\ (Metrics.count Metrics.AuctionCounter fx <= 1)%nat
  /\ Metrics.count Metrics.DSPRequestCounter fx = List.length (Metrics.dsp_calls fx)
  /\ Metrics.count Metrics.DSPResponseCounter fx = List.length (Metrics.dsp_calls fx)
  /\ Metrics.count Metrics.DSPLatencyHistogram fx = List.length (Metrics.dsp_calls fx)
  /\ (Auction.Code r = 200 <-> In (Auction.AuctionInc "ok") fx).
Proof.
  intros un call arr mar lg m code body. unfold Auction.Handle. cbv zeta.
  destruct (Manager.GetConfig m) as [cfg|]; [|metrics_leaf].
  destruct (negb (PartnersConfig.AdServing cfg)); [metrics_leaf|].
  destruct (String.eqb code EmptyString); [metrics_leaf|].
  destruct (Manager.GetSSPByInventoryCode m code) as [ssp|]; [|metrics_leaf].
  destruct body as [raw|]; [|metrics_leaf].
  destruct (un raw) as [bidReq|]; [|metrics_leaf].
  destruct (BidRequest.TMax bidReq <=? 120); [metrics_leaf|].
  destruct (Targeting.ShortlistDSPs bidReq (Manager.GetDSPsByTenant m (SSPInventory.TenantID ssp)) 5)
    as [|d ds]; [metrics_leaf|].
  pose proof (fan_out_metrics call (BidRequest.TMax bidReq) raw (d :: ds)) as HF.
  pose proof (fan_out_effects call (BidRequest.TMax bidReq) raw (d :: ds)) as HE.
  destruct (Auction.fan_out call (BidRequest.TMax bidReq) raw (d :: ds)) as [fx results].
  cbn [fst] in HF, HE. cbv zeta in HF. destruct HF as (H1 & H2 & H3 & H4 & H5 & H6 & H7).
  destruct (Auction.select (arr results)) as [[best|] price]; [destruct lg|];
    cbv beta iota; cbn [Auction.Code];
    rewrite !count_app, !dsp_calls_app, H1, H2, H3, H4, H5, H6, H7;
    rewrite !length_app, length_map;
    unfold Metrics.count; simpl;
    (repeat split; try reflexivity; try lia); cbn [Z.eqb Pos.eqb];
    try reflexivity;
    try (intros H; rewrite !in_app_iff in H;
         destruct H as [H|[H|H]];
         [simpl in H; intuition congruence
         |exfalso; exact (proj2 (HE _ H) "ok"%string eq_refl)
         |simpl in H; intuition congruence]);
    try (intros _; rewrite !in_app_iff; right; right; simpl; auto).
Qed.




(** A winner of the selection loop is one of the results it read, its
    price is the price of one of that result's bids, and it is above 0. *)
Lemma select_some : forall rs best price,
  Auction.select rs = (Some best, price) ->
  In best rs /\ In price (Auction.prices best) /\ Float64.gt price Float64.zero = true.
Proof.
  intros rs best price H. rewrite select_flat in H.
  destruct (fold_max (Auction.flat rs) None Float64.zero eq_refl)
    as [[Hf _] | (ys & r & p & zs & Hxs & Hf & Hgt & _)]; rewrite Hf in H; [discriminate|].
  injection H as <- <-.
  assert (Hin : In (r, p) (Auction.flat rs))
    by (rewrite Hxs; apply in_or_app; right; left; reflexivity).
  apply in_flat in Hin. tauto.
Qed.

(** On the winner path the handler answers 200 with the JSON of the winning
    response, after counting an [ok] auction and an [ok] SSP response.  When
    a bid logger is set it hands it one event, just before those two
    updates, whose DSP price is the winning bid's price, whose DSP and SSP ids
    are the [uint32] of the winner's and the SSP's ids, whose raw request is
    the request body as read, and whose raw DSP response is the same bytes as
    the HTTP answer's body; without a logger nothing is logged. *)
Theorem Handle_winner_response_and_event {tables : UnicodeTables} :
  forall UnmarshalReq CallDSP Arrival MarshalResp BidLoggerPresent
         m cfg code raw ssp bidReq best price,
  Manager.GetConfig m = Some cfg ->
  PartnersConfig.AdServing cfg = true ->
  code <> EmptyString ->
  Manager.GetSSPByInventoryCode m code = Some ssp ->
  UnmarshalReq raw = Some bidReq ->
  120 < BidRequest.TMax bidReq ->
  Targeting.ShortlistDSPs bidReq (Manager.GetDSPsByTenant m (SSPInventory.TenantID ssp)) 5 <> [] ->
  Auction.select
    (Auction.received CallDSP Arrival (BidRequest.TMax bidReq) raw
       (Targeting.ShortlistDSPs bidReq (Manager.GetDSPsByTenant m (SSPInventory.TenantID ssp)) 5))
  = (Some best, price) ->
  exists fx logfx,
    Auction.Handle UnmarshalReq CallDSP Arrival MarshalResp BidLoggerPresent m code (Some raw)
    = (Auction.SSPRequestInc (SSPInventory.PrometheusIdentifier ssp)
         (SSPInventory.TenantIdentifier ssp) (SSPInventory.SSPIdentifier ssp)
       :: fx ++ logfx
       ++ [Auction.AuctionInc "ok";
           Auction.SSPResponseInc (SSPInventory.PrometheusIdentifier ssp)
             (SSPInventory.TenantIdentifier ssp) (SSPInventory.SSPIdentifier ssp) "ok"],
       Auction.mkResponse 200 (Auction.JSONBody (MarshalResp (Auction.resp best))))
    /\ (forall e, In e fx -> (forall ev, e <> Auction.BidLog ev) /\ (forall s, e <> Auction.AuctionInc s))
    /\ (BidLoggerPresent = false -> logfx = [])
    /\ (BidLoggerPresent = true ->
        exists ev, logfx = [Auction.BidLog ev]
          /\ Generated.AuctionEvent.DspPrice ev = price
          /\ In price (Auction.prices best)
          /\ Float64.gt price Float64.zero = true
          /\ Generated.AuctionEvent.DspPartnerId ev = Auction.uint32 (DSPInventory.DSPID (Auction.dsp best))
          /\ Generated.AuctionEvent.DspInventoryId ev
             = Auction.uint32 (DSPInventory.DSPInventoryID (Auction.dsp best))
          /\ Generated.AuctionEvent.TenantId ev = Auction.uint32 (SSPInventory.TenantID ssp)
          /\ Generated.AuctionEvent.SspPartnerId ev = Auction.uint32 (SSPInventory.SSPID ssp)
          /\ Generated.AuctionEvent.SspInventoryId ev = Auction.uint32 (SSPInventory.SSPInventoryID ssp)
          /\ Generated.AuctionEvent.SspPartnerAuctionId ev = BidRequest.ID bidReq
          /\ Generated.AuctionEvent.RawBidRequest ev = raw
          /\ Generated.AuctionEvent.RawDspResponse ev = MarshalResp (Auction.resp best)).
Proof.
  intros un call arr mar lg m cfg code raw ssp bidReq best price
    Hc Ha Hcode Hssp Hun Ht Hne Hsel.
  destruct (select_some _ _ _ Hsel) as (_ & Hp & Hgt).
  unfold Auction.received in Hsel.
  pose proof (fan_out_effects call (BidRequest.TMax bidReq) raw
                (Targeting.ShortlistDSPs bidReq (Manager.GetDSPsByTenant m (SSPInventory.TenantID ssp)) 5))
    as HE.
  unfold Auction.Handle. cbv zeta. rewrite Hc, Ha, Hssp, Hun.
  apply String.eqb_neq in Hcode. rewrite Hcode. cbn [negb].
  destruct (Z.leb_spec (BidRequest.TMax bidReq) 120) as [Hle|_]; [lia|].
  destruct (Targeting.ShortlistDSPs bidReq (Manager.GetDSPsByTenant m (SSPInventory.TenantID ssp)) 5)
    as [|d ds]; [contradiction|].
  destruct (Auction.fan_out call (BidRequest.TMax bidReq) raw (d :: ds)) as [fx results].
  cbn [snd] in Hsel. cbn [fst] in HE. rewrite Hsel.
  exists fx, (if lg then [Auction.BidLog (Auction.auction_event mar ssp bidReq raw best price)] else []).
  split; [reflexivity|]. split; [exact HE|].
  split; [intros ->; reflexivity|].
  intros ->. eexists. split; [reflexivity|].
  repeat split; assumption.
Qed.

(** ** DSP calls *)

(** Each DSP task makes four effects in a fixed order: the request update,
    the call, the latency observation and one response update.  The update
    is [error] and nothing is sent unless the endpoint URL parses, the DSP
    answers status 200 and its body decodes (a 204 answer is an [error]);
    otherwise the decoded response is sent with the DSP, and the update is
    [bid] when some seat bid has a bid and [nobid] when none has. *)
Theorem dsp_task_callDSP :
  forall (ParseURL : string -> bool) (Do : Z -> DSPInventory.t -> list Z -> Client.HttpResult)
         (Decode : list Z -> option BidResponse.t) tmax body d,
  let p := DSPInventory.PrometheusIdentifier d in
  let t := DSPInventory.TenantIdentifier d in
  let i := DSPInventory.DSPIdentifier d in
  let '(fx, r) := Auction.dsp_task (Client.CallDSP ParseURL Do Decode) tmax body d in
  exists status,
    fx = [Auction.DSPRequestInc p t i; Auction.DSPCall d body; Auction.DSPLatencyObserve p t i;
          Auction.DSPResponseInc p t i status]
    /\ ((status = "error"%string /\ r = None
         /\ forall b, ParseURL (DSPInventory.EndpointURL d) = true ->
                      Do tmax d body = Client.HttpResponse 200 b -> Decode b = None)
        \/ exists b resp,
             ParseURL (DSPInventory.EndpointURL d) = true
             /\ Do tmax d body = Client.HttpResponse 200 b /\ Decode b = Some resp
             /\ r = Some (Auction.mkBidResult resp d)
             /\ status = (if Auction.hasBid resp then "bid" else "nobid")%string).
Proof.
  intros P Do Dec tmax body d p t i.
  unfold Auction.dsp_task, Client.CallDSP, Client.callDSP.
  destruct (P (DSPInventory.EndpointURL d)) eqn:Hp; cbn [negb].
  2:{ eexists. split; [reflexivity|]. left. split; [reflexivity|]. split; [reflexivity|].
      intros b Hp'. congruence. }
  destruct (Do tmax d body) as [msg|code b] eqn:Hdo.
  { eexists. split; [reflexivity|]. left. split; [reflexivity|]. split; [reflexivity|].
    intros b _ H. discriminate. }
  destruct (Z.eqb_spec code 200) as [->|Hc]; cbn [negb].
  2:{ eexists. split; [reflexivity|]. left. split; [reflexivity|]. split; [reflexivity|].
      intros b' _ H. injection H as H _. contradiction. }
  destruct (Dec b) as [resp|] eqn:Hd.
  - eexists. split; [reflexivity|]. right. exists b, resp. auto.
  - eexists. split; [reflexivity|]. left. split; [reflexivity|]. split; [reflexivity|].
    intros b' _ H. injection H as <-. exact Hd.
Qed.

(** ** Bid logger *)

(** [Log] on an open channel never panics and never blocks.  The stamped
    event is queued when the buffer has room, or handed over when the
    consumer goroutine is waiting (and nothing is pending); otherwise it is
    dropped.  Nothing else of the logger changes, so the pending events
    never outnumber the buffer size (or one, on an unbuffered channel). *)
Theorem Log_open_channel : forall ready now e (l : Logging.BidLogger),
  Logging.closed (Logging.logChan l) = false ->
  exists l', Logging.Log ready now e l = Logging.Ok l'
    /\ Logging.closed (Logging.logChan l') = false
    /\ Logging.bufferSize l' = Logging.bufferSize l
    /\ Logging.writes l' = Logging.writes l
    /\ Logging.writer_open l' = Logging.writer_open l
    /\ Logging.hostname l' = Logging.hostname l
    /\ ((((List.length (Logging.buf (Logging.logChan l)) < Logging.bufferSize l)%nat
          \/ (ready = true /\ Logging.buf (Logging.logChan l) = []))
         /\ Logging.buf (Logging.logChan l')
            = Logging.buf (Logging.logChan l) ++ [Logging.stamp l now e])
        \/ ((Logging.bufferSize l <= List.length (Logging.buf (Logging.logChan l)))%nat
            /\ (ready = false \/ Logging.buf (Logging.logChan l) <> [])
            /\ l' = l))
    /\ ((List.length (Logging.buf (Logging.logChan l)) <= Nat.max (Logging.bufferSize l) 1)%nat ->
        (List.length (Logging.buf (Logging.logChan l')) <= Nat.max (Logging.bufferSize l) 1)%nat).
Proof.
  intros ready now e [[b c] n w o h] Hc; cbn in Hc; subst c.
  unfold Logging.Log; cbn [Logging.logChan Logging.closed Logging.buf Logging.bufferSize].
  destruct (Nat.ltb_spec (List.length b) n) as [Hlt|Hge]; cbn [orb].
  - eexists. split; [reflexivity|]. cbn [Logging.set_chan Logging.logChan Logging.closed
      Logging.bufferSize Logging.writes Logging.writer_open Logging.hostname Logging.buf].
    do 5 (split; [reflexivity|]).
    split; [left; split; [left; exact Hlt|reflexivity]|].
    intros _. rewrite length_app. cbn [List.length]. lia.
  - destruct ready, b as [|x b']; cbn [andb];
      (eexists; split; [reflexivity|]);
      cbn [Logging.set_chan Logging.logChan Logging.closed Logging.bufferSize Logging.writes
           Logging.writer_open Logging.hostname Logging.buf];
      (do 5 (split; [reflexivity|])).
    + split; [left; split; [right; split; reflexivity|reflexivity]|].
      intros _. cbn. lia.
    + split; [right; split; [exact Hge|]; split; [right; discriminate|reflexivity]|]. auto.
    + split; [right; split; [exact Hge|]; split; [left; reflexivity|reflexivity]|]. auto.
    + split; [right; split; [exact Hge|]; split; [left; reflexivity|reflexivity]|]. auto.
Qed.

Lemma start_drain : forall b c n w o h,
  Logging.start (List.length b) (Logging.mkBidLogger (Logging.mkChan b c) n w o h)
  = Logging.mkBidLogger (Logging.mkChan [] c) n (w ++ Logging.written_lines b) o h.
Proof.
  induction b as [|e b IH]; intros c n w o h.
  - cbn. now rewrite app_nil_r.
  - cbn [List.length Logging.start Logging.start_step Logging.buf Logging.logChan Logging.closed].
    unfold Logging.writeEvent, Logging.set_chan, Logging.add_write.
    unfold Logging.written_lines at 1. cbn [flat_map]. fold (Logging.written_lines b).
    destruct (Logging.Marshal e) as [data|]; cbn.
    + rewrite IH. now rewrite <- app_assoc.
    + rewrite IH. reflexivity.
Qed.

(** The writer loop of [start], run on a logger's queue, writes the queued
    events in the order they were queued, one line each (the hex encoding
    of the serialized event and a newline), skips those that fail to
    serialize, and leaves the queue empty and the channel's state as it was;
    after that it has nothing left to read. *)
Theorem start_writes_queue_in_order : forall l : Logging.BidLogger,
  let l' := Logging.start (List.length (Logging.buf (Logging.logChan l))) l in
  Logging.buf (Logging.logChan l') = []
  /\ Logging.closed (Logging.logChan l') = Logging.closed (Logging.logChan l)
  /\ Logging.writes l' = Logging.writes l ++ Logging.written_lines (Logging.buf (Logging.logChan l))
  /\ Logging.bufferSize l' = Logging.bufferSize l
  /\ Logging.writer_open l' = Logging.writer_open l
  /\ Logging.start_step l' = None.
Proof.
  intros [[b c] n w o h] l'. subst l'. cbn [Logging.logChan Logging.buf].
  rewrite start_drain. repeat split.
Qed.

(** [Close] on an open logger keeps the queued events and closes the writer;
    after it, [Log] panics (a send on a closed channel), while the writer
    loop still writes the events queued before the [Close], in order, one
    line for each that serializes (one that fails to serialize gets no
    line), and then ends. *)
Theorem Close_then_Log_panics : forall ready now e (l : Logging.BidLogger),
  Logging.closed (Logging.logChan l) = false ->
  exists l', Logging.Close l = Logging.Ok l'
    /\ Logging.buf (Logging.logChan l') = Logging.buf (Logging.logChan l)
    /\ Logging.writer_open l' = false
    /\ Logging.Log ready now e l' = Logging.Panic "send on closed channel"
    /\ Logging.writes (Logging.start (List.length (Logging.buf (Logging.logChan l))) l')
       = Logging.writes l ++ Logging.written_lines (Logging.buf (Logging.logChan l))
    /\ Logging.start_step (Logging.start (List.length (Logging.buf (Logging.logChan l))) l') = None.
Proof.
  intros ready now e [[b c] n w o h] Hc. cbn in Hc. subst c.
  eexists. split; [reflexivity|]. cbn [Logging.logChan Logging.buf].
  unfold Logging.close_writer, Logging.set_chan. cbn [Logging.logChan Logging.buf Logging.bufferSize
    Logging.writes Logging.hostname].
  rewrite start_drain. repeat split.
Qed.

(** ** The log line *)

Lemma hexdigit_lower : forall n, 0 <= n < 16 -> Logging.lower_hex_char (Logging.hexdigit n) = true.
Proof.
  intros n Hn. unfold Logging.lower_hex_char, Logging.hexdigit, Logging.byte_range.
  destruct (Z.ltb_spec n 10) as [Hlt|Hge];
    rewrite Ascii.nat_ascii_embedding, Z2Nat.id by lia;
    apply orb_true_iff; [left|right]; apply andb_true_iff; split; apply Z.leb_le; lia.
Qed.

Lemma EncodeToString_shape : forall l,
  Forall Logging.is_byte l ->
  String.length (Logging.EncodeToString l) = (2 * List.length l)%nat
  /\ forallb Logging.lower_hex_char (list_ascii_of_string (Logging.EncodeToString l)) = true.
Proof.
  induction l as [|b l IH]; intros Hl; [split; reflexivity|].
  inversion Hl as [|? ? Hb Hr]; subst. unfold Logging.is_byte in Hb.
  destruct (IH Hr) as [Hlen Hall]. cbn [Logging.EncodeToString String.length list_ascii_of_string forallb].
  split; [rewrite Hlen; cbn [List.length]; lia|].
  rewrite !hexdigit_lower, Hall; [reflexivity | |].
  - pose proof (Z.mod_pos_bound b 16 ltac:(lia)). lia.
  - split; [apply Z.div_pos; lia | apply Z.div_lt_upper_bound; lia].
Qed.

(** For an event whose fields hold values of their Go types, [writeEvent]
    writes nothing when serialization fails, and otherwise exactly one line:
    two lower-case hex digits per byte of the serialized event, then a
    newline; so the log has exactly one newline per written event. *)
Theorem writeEvent_one_hex_line : forall e (l : Logging.BidLogger),
  Logging.wf_event e ->
  (Logging.Marshal e = None /\ Logging.writeEvent e l = l)
  \/ exists data h,
       Logging.Marshal e = Some data
       /\ Logging.writeEvent e l = Logging.add_write l (h ++ Logging.newline)
       /\ String.length h = (2 * List.length data)%nat
       /\ forallb Logging.lower_hex_char (list_ascii_of_string h) = true.
Proof.
  intros e l Hwf. unfold Logging.writeEvent.
  destruct (Logging.Marshal e) as [data|] eqn:Hm; [right|left; auto].
  exists data, (Logging.EncodeToString data). split; [reflexivity|]. split; [reflexivity|].
  apply EncodeToString_shape.
  unfold Logging.Marshal in Hm. destruct (Logging.event_strings_valid e); [|discriminate].
  injection Hm as <-. apply put_fields_bytes, event_fields_ok, Hwf.
Qed.

(** ** Metrics registration *)








(** ** Instances *)

Section Instances.
Local Open Scope string_scope.
#[local] Existing Instance no_tables.

Lemma MatchTargeting_source_witness :
  let req := Fixtures.req 300 "US" in
  let d := Fixtures.dsp ["web"; "App"] [] [] in
  Targeting.MatchTargeting req d = true
  /\ (DSPInventory.Source d = []
      \/ exists s, In s (DSPInventory.Source d)
                   /\ ToLower s = match BidRequest.App req with
                                  | Some _ => "app"%string
                                  | None => "web"%string
                                  end).
Proof.
  intros req d.
  assert (H : Targeting.MatchTargeting req d = true) by (vm_compute; reflexivity).
  split; [exact H | exact (MatchTargeting_source req d H)].
Defined.

Lemma MatchTargeting_bundle_witness :
  let req := Fixtures.req 300 "US" in
  let d := Fixtures.dsp [] [] [] in
  let a := App.mk "app-1" "game" "com.x" "x.com" in
  Targeting.MatchTargeting req d = true
  /\ BidRequest.App req = Some a
  /\ App.Bundle a <> EmptyString
  /\ ~ In (App.Bundle a) (DSPInventory.BundleIDsBlackList d)
  /\ (DSPInventory.BundleIDs d = [] \/ In (App.Bundle a) (DSPInventory.BundleIDs d)).
Proof.
  intros req d a.
  assert (H : Targeting.MatchTargeting req d = true) by (vm_compute; reflexivity).
  assert (Hb : App.Bundle a <> EmptyString) by discriminate.
  split; [exact H|]. split; [reflexivity|]. split; [exact Hb|].
  exact (MatchTargeting_bundle req d a H eq_refl Hb).
Defined.

Lemma MatchTargeting_format_witness :
  let req := Fixtures.req 300 "US" in
  let d := Fixtures.dsp [] [] [] in
  Targeting.MatchTargeting req d = true
  /\ DSPInventory.AdFormats d <> []
  /\ exists imp df, In imp (BidRequest.Imp req) /\ In df (DSPInventory.AdFormats d)
    /\ ((Imp.Banner imp = true /\ ToLower df = "banner"%string)
        \/ (Imp.Video imp = true /\ ToLower df = "video"%string)
        \/ (Imp.Audio imp = true /\ ToLower df = "audio"%string)
        \/ (Imp.Native imp = true /\ ToLower df = "native"%string)).
Proof.
  intros req d.
  assert (H : Targeting.MatchTargeting req d = true) by (vm_compute; reflexivity).
  assert (Hne : DSPInventory.AdFormats d <> []) by discriminate.
  split; [exact H|]. split; [exact Hne|]. exact (MatchTargeting_format req d H Hne).
Defined.

(** Two records that differ in their status, IAB categories and floors but
    not in the six lists. *)
Lemma MatchTargeting_reads_six_lists_witness :
  let d1 := Fixtures.dsp ["app"] ["US"] [] in
  let d2 := DSPInventory.mk "dsp-2" "dsp-b" "ep" "http://other.example/bid" 10 200 2 "dinv-2"
              "Paused" "5.0" "9.0" ["banner"] ["app"] ["US"] [] ["IAB1"] [] [] ["ssp-x"] []
              [] [] "tenant-b" 11 41 51 "q" "prom-dsp-2" in
  Targeting.MatchTargeting (Fixtures.req 300 "US") d1
  = Targeting.MatchTargeting (Fixtures.req 300 "US") d2.
Proof.
  intros d1 d2.
  exact (MatchTargeting_reads_six_lists (Fixtures.req 300 "US") d1 d2
           eq_refl eq_refl eq_refl eq_refl eq_refl eq_refl).
Defined.

Lemma MatchTargeting_untargeted_witness :
  let d := DSPInventory.mk "dsp-3" "dsp-c" "ep" "http://dsp.example/bid" 10 200 3 "dinv-3"
             "Active" "100" "" [] [] [] [] ["IAB1"] [] [] [] [] [] [] "tenant-a" 10 42 52 "r"
             "prom-dsp-3" in
  Targeting.MatchTargeting (Fixtures.req 300 "FR") d = true.
Proof.
  intros d.
  exact (MatchTargeting_untargeted (Fixtures.req 300 "FR") d
           eq_refl eq_refl eq_refl eq_refl eq_refl eq_refl).
Defined.

Lemma ShortlistDSPs_first_matching_witness :
  let req := Fixtures.req 300 "US" in
  let cands := [Fixtures.dsp ["web"] [] []; Fixtures.dsp [] [] []; Fixtures.dsp [] ["DE"] []] in
  1 <= 5
  /\ Targeting.ShortlistDSPs req cands 5
     = firstn (Z.to_nat 5) (filter (Targeting.MatchTargeting req) cands)
  /\ (List.length (Targeting.ShortlistDSPs req cands 5) <= Z.to_nat 5)%nat
  /\ (forall d, In d (Targeting.ShortlistDSPs req cands 5) ->
        In d cands /\ Targeting.MatchTargeting req d = true).
Proof.
  intros req cands. split; [lia|]. exact (ShortlistDSPs_first_matching req cands 5 ltac:(lia)).
Defined.

End Instances.

Section Handle_winner_response_and_event_example.
#[local] Existing Instance no_tables.

Lemma Handle_winner_response_and_event_witness :
  let m := Some (Fixtures.cfg (Fixtures.ssp "Active"%string)) in
  let un := fun _ : list Z => Some (Fixtures.req 300 "US"%string) in
  let call := fun (_ : Z) (_ : DSPInventory.t) (_ : list Z) => Some Fixtures.winning_response in
  let best := Auction.mkBidResult Fixtures.winning_response (Fixtures.dsp [] [] []) in
  let ssp := Fixtures.ssp "Active"%string in
  Auction.select
    (Auction.received call (fun l => l) 300 [123; 125]
       (Targeting.ShortlistDSPs (Fixtures.req 300 "US"%string)
          (Manager.GetDSPsByTenant m (SSPInventory.TenantID ssp)) 5))
  = (Some best, 4612811918334230528)
  /\ exists fx logfx,
    Auction.Handle un call (fun l => l) (fun _ => [1]) true m "acc-1"%string (Some [123; 125])
    = (Auction.SSPRequestInc (SSPInventory.PrometheusIdentifier ssp)
         (SSPInventory.TenantIdentifier ssp) (SSPInventory.SSPIdentifier ssp)
       :: fx ++ logfx
       ++ [Auction.AuctionInc "ok"%string;
           Auction.SSPResponseInc (SSPInventory.PrometheusIdentifier ssp)
             (SSPInventory.TenantIdentifier ssp) (SSPInventory.SSPIdentifier ssp) "ok"%string],
       Auction.mkResponse 200 (Auction.JSONBody [1]))
    /\ (forall e, In e fx -> (forall ev, e <> Auction.BidLog ev) /\ (forall s, e <> Auction.AuctionInc s))
    /\ (true = false -> logfx = [])
    /\ (true = true ->
        exists ev, logfx = [Auction.BidLog ev]
          /\ Generated.AuctionEvent.DspPrice ev = 4612811918334230528
          /\ In 4612811918334230528 (Auction.prices best)
          /\ Float64.gt 4612811918334230528 Float64.zero = true
          /\ Generated.AuctionEvent.DspPartnerId ev = Auction.uint32 (DSPInventory.DSPID (Auction.dsp best))
          /\ Generated.AuctionEvent.DspInventoryId ev
             = Auction.uint32 (DSPInventory.DSPInventoryID (Auction.dsp best))
          /\ Generated.AuctionEvent.TenantId ev = Auction.uint32 (SSPInventory.TenantID ssp)
          /\ Generated.AuctionEvent.SspPartnerId ev = Auction.uint32 (SSPInventory.SSPID ssp)
          /\ Generated.AuctionEvent.SspInventoryId ev = Auction.uint32 (SSPInventory.SSPInventoryID ssp)
          /\ Generated.AuctionEvent.SspPartnerAuctionId ev = BidRequest.ID (Fixtures.req 300 "US"%string)
          /\ Generated.AuctionEvent.RawBidRequest ev = [123; 125]
          /\ Generated.AuctionEvent.RawDspResponse ev = [1]).
Proof.
  intros m un call best ssp.
  assert (Hsel : Auction.select
    (Auction.received call (fun l => l) 300 [123; 125]
       (Targeting.ShortlistDSPs (Fixtures.req 300 "US"%string)
          (Manager.GetDSPsByTenant m (SSPInventory.TenantID ssp)) 5))
    = (Some best, 4612811918334230528)) by (vm_compute; reflexivity).
  split; [exact Hsel|].
  exact (Handle_winner_response_and_event un call (fun l => l) (fun _ => [1]) true
           m (Fixtures.cfg (Fixtures.ssp "Active"%string)) "acc-1"%string [123; 125] ssp
           (Fixtures.req 300 "US"%string) best 4612811918334230528
           eq_refl eq_refl ltac:(discriminate) eq_refl eq_refl ltac:(simpl; lia)
           ltac:(vm_compute; discriminate) Hsel).
Defined.

End Handle_winner_response_and_event_example.

Lemma Log_open_channel_witness :
  let l0 := Logging.mkBidLogger (Logging.mkChan [] false) 0 [] true "host-1"%string in
  (Logging.closed (Logging.logChan Fixtures.logger) = false
   /\ exists l', Logging.Log false 7 Fixtures.good_event Fixtures.logger = Logging.Ok l'
     /\ Logging.closed (Logging.logChan l') = false
     /\ Logging.bufferSize l' = Logging.bufferSize Fixtures.logger
     /\ Logging.writes l' = Logging.writes Fixtures.logger
     /\ Logging.writer_open l' = Logging.writer_open Fixtures.logger
     /\ Logging.hostname l' = Logging.hostname Fixtures.logger
     /\ ((((List.length (Logging.buf (Logging.logChan Fixtures.logger))
            < Logging.bufferSize Fixtures.logger)%nat
           \/ (false = true /\ Logging.buf (Logging.logChan Fixtures.logger) = []))
          /\ Logging.buf (Logging.logChan l')
             = Logging.buf (Logging.logChan Fixtures.logger)
               ++ [Logging.stamp Fixtures.logger 7 Fixtures.good_event])
         \/ ((Logging.bufferSize Fixtures.logger
              <= List.length (Logging.buf (Logging.logChan Fixtures.logger)))%nat
             /\ (false = false \/ Logging.buf (Logging.logChan Fixtures.logger) <> [])
             /\ l' = Fixtures.logger))
     /\ ((List.length (Logging.buf (Logging.logChan Fixtures.logger))
          <= Nat.max (Logging.bufferSize Fixtures.logger) 1)%nat ->
         (List.length (Logging.buf (Logging.logChan l'))
          <= Nat.max (Logging.bufferSize Fixtures.logger) 1)%nat))
  /\ (Logging.closed (Logging.logChan l0) = false
      /\ exists l', Logging.Log true 7 Fixtures.good_event l0 = Logging.Ok l'
        /\ Logging.closed (Logging.logChan l') = false
        /\ Logging.bufferSize l' = Logging.bufferSize l0
        /\ Logging.writes l' = Logging.writes l0
        /\ Logging.writer_open l' = Logging.writer_open l0
        /\ Logging.hostname l' = Logging.hostname l0
        /\ ((((List.length (Logging.buf (Logging.logChan l0)) < Logging.bufferSize l0)%nat
              \/ (true = true /\ Logging.buf (Logging.logChan l0) = []))
             /\ Logging.buf (Logging.logChan l')
                = Logging.buf (Logging.logChan l0) ++ [Logging.stamp l0 7 Fixtures.good_event])
            \/ ((Logging.bufferSize l0 <= List.length (Logging.buf (Logging.logChan l0)))%nat
                /\ (true = false \/ Logging.buf (Logging.logChan l0) <> [])
                /\ l' = l0))
        /\ ((List.length (Logging.buf (Logging.logChan l0)) <= Nat.max (Logging.bufferSize l0) 1)%nat ->
            (List.length (Logging.buf (Logging.logChan l')) <= Nat.max (Logging.bufferSize l0) 1)%nat)).
Proof.
  intros l0. split.
  - split; [reflexivity|]. exact (Log_open_channel false 7 Fixtures.good_event Fixtures.logger eq_refl).
  - split; [reflexivity|]. exact (Log_open_channel true 7 Fixtures.good_event l0 eq_refl).
Defined.

Lemma Close_then_Log_panics_witness :
  let l := Logging.mkBidLogger (Logging.mkChan [Fixtures.good_event; Fixtures.bad_event] false)
             10 [] true "host-1"%string in
  Logging.closed (Logging.logChan l) = false
  /\ exists l', Logging.Close l = Logging.Ok l'
    /\ Logging.buf (Logging.logChan l') = Logging.buf (Logging.logChan l)
    /\ Logging.writer_open l' = false
    /\ Logging.Log true 7 Fixtures.good_event l' = Logging.Panic "send on closed channel"%string
    /\ Logging.writes (Logging.start (List.length (Logging.buf (Logging.logChan l))) l')
       = Logging.writes l ++ Logging.written_lines (Logging.buf (Logging.logChan l))
    /\ Logging.start_step (Logging.start (List.length (Logging.buf (Logging.logChan l))) l') = None.
Proof.
  intros l. split; [reflexivity|]. exact (Close_then_Log_panics true 7 Fixtures.good_event l eq_refl).
Defined.

Lemma writeEvent_one_hex_line_witness :
  Logging.wf_event Fixtures.good_event
  /\ ((Logging.Marshal Fixtures.good_event = None
       /\ Logging.writeEvent Fixtures.good_event Fixtures.logger = Fixtures.logger)
      \/ exists data h,
           Logging.Marshal Fixtures.good_event = Some data
           /\ Logging.writeEvent Fixtures.good_event Fixtures.logger
              = Logging.add_write Fixtures.logger (h ++ Logging.newline)
           /\ String.length h = (2 * List.length data)%nat
           /\ forallb Logging.lower_hex_char (list_ascii_of_string h) = true).
Proof.
  assert (Hwf : Logging.wf_event Fixtures.good_event).
  { unfold Logging.wf_event, Logging.is_byte. simpl.
    repeat split; try lia; repeat constructor; lia. }
  split; [exact Hwf|]. exact (writeEvent_one_hex_line Fixtures.good_event Fixtures.logger Hwf).
Defined.
